(** * Gemini Lens: image-edit session and generation client

    A shallow embedding of the request/response orchestration of the
    application: [src/App.tsx] (the session state and its handlers) and the
    Gemini service module (the encoder [fileToPart] and the generation
    client [editImageWithGemini]).

    Conventions of the embedding.
    - A JavaScript string is a [string]; its characters stand for code units,
      restricted to the 8-bit range.
    - [undefined]/[null] is [None]; an optional property is an [option].
    - A promise that has settled is a [Settled] value; the platform
      operations the code awaits ([FileReader.readAsDataURL], the remote
      [generateContent] call) are supplied by a [Platform] record, so every
      statement quantifies over what they answer.
    - A thrown object has an optional [message] property ([Error]
      instances carry one, a [ProgressEvent] does not); what a [throw] or a
      rejection carries is such an object, or [null]/[undefined]. *)

From Stdlib Require Import String Ascii List Bool Arith NArith ZArith Lia.
From Stdlib Require Import Strings.Byte.
Import ListNotations.
Local Open Scope string_scope.

(** ** JavaScript string primitives used by the code *)

Module Js.

(** [!!s] for a string: the empty string is falsy. *)
Definition truthy (s : string) : bool :=
  match s with
  | EmptyString => false
  | String _ _ => true
  end.

(** [!!v] for a value that is a string or [undefined]. *)
Definition truthyOpt (v : option string) : bool :=
  match v with
  | Some s => truthy s
  | None => false
  end.

(** [v || d] where [v] is a string or [undefined]. *)
Definition orElse (v : option string) (d : string) : string :=
  match v with
  | Some s => if truthy s then s else d
  | None => d
  end.

(** White space and line terminators of ECMAScript in the 8-bit range:
    TAB, LF, VT, FF, CR, SPACE and NBSP. *)
Definition isWhiteSpace (c : ascii) : bool :=
  match N_of_ascii c with
  | 9%N | 10%N | 11%N | 12%N | 13%N | 32%N | 160%N => true
  | _ => false
  end.

Fixpoint trimStart (s : string) : string :=
  match s with
  | EmptyString => EmptyString
  | String c s' => if isWhiteSpace c then trimStart s' else s
  end.

(** [trimEnd] drops the trailing white space: a character is kept when it
    is not white space or when something is kept after it. *)
Fixpoint trimEnd (s : string) : string :=
  match s with
  | EmptyString => EmptyString
  | String c s' =>
      match trimEnd s' with
      | EmptyString => if isWhiteSpace c then EmptyString else String c EmptyString
      | t => String c t
      end
  end.

(** [String.prototype.trim]. *)
Definition trim (s : string) : string := trimEnd (trimStart s).

(** [s.slice(0, n)]. *)
Definition slice0 (n : nat) (s : string) : string := substring 0 n s.

(** [s.split(sep)] for a one-character separator. *)
Fixpoint split (sep : ascii) (s : string) : list string :=
  match s with
  | EmptyString => [EmptyString]
  | String c s' =>
      if Ascii.eqb c sep then EmptyString :: split sep s'
      else match split sep s' with
           | [] => [String c EmptyString]
           | piece :: pieces => String c piece :: pieces
           end
  end.

(** A thrown object: its [message] property may be missing. *)
Record Thrown := { message : option string }.

(** What a [throw] or a rejection carries ([catch (error: any)]): [null]
    or [undefined], or an object. *)
Inductive Fault :=
| Nullish
| Obj (o : Thrown).
Coercion Obj : Thrown >-> Fault.

(** [new Error(m)]. *)
Definition newError (m : string) : Thrown := {| message := Some m |}.

(** The [TypeError] the engine raises on [undefined.parts]; only the fact
    that it carries this non-empty message matters. *)
Definition typeError : Thrown :=
  newError "Cannot read properties of undefined (reading 'parts')".

(** The [TypeError] the engine raises on [undefined.message]. *)
Definition typeErrorOnMessage : Thrown :=
  newError "Cannot read properties of undefined (reading 'message')".

(** A settled promise. *)
Inductive Settled (A : Type) : Type :=
| Fulfilled (value : A)
| Rejected (reason : Fault).
Arguments Fulfilled {A} value.
Arguments Rejected {A} reason.

End Js.
Import Js.

(** ** Data model *)

(** A [File]: its bytes and its declared media type. *)
Record File := { bytes : list byte; type : string }.

(** [{ data, mimeType }] of an inline-data part. *)
Record InlineData := { data : option string; mimeType : option string }.

(** A content part: [inlineData] and [text] are both optional. *)
Record Part := { inlineData : option InlineData; text : option string }.

Record Content := { parts : option (list Part) }.
Record Candidate := { content : option Content }.
Record Response := { candidates : option (list Candidate) }.

(** The payload of [ai.models.generateContent]. *)
Record Request := { model : string; contents : list Part }.

(** What the [FileReader] reports: [onerror] fired with an event (which
    settles the promise first), or [onloadend] fired with [reader.result]
    being a string or not. *)
Inductive ReadOutcome :=
| LoadEnd (result : option string)
| ReadError (event : Thrown).

(** The operations the service module awaits. *)
Record Platform := {
  readAsDataURL : File -> ReadOutcome;
  generateContent : Request -> Settled Response
}.

(** ** Encoder: [fileToPart] *)

Definition comma : ascii := ","%char.

Definition fileToPart (reader : File -> ReadOutcome) (file : File) : Settled Part :=
  match reader file with
  | ReadError event => Rejected event
  | LoadEnd (Some result) =>
      let base64String := nth_error (split comma result) 1 in
      Fulfilled {| inlineData := Some {| data := base64String;
                                         mimeType := Some (type file) |};
                   text := None |}
  | LoadEnd None => Rejected (newError "Failed to read file")
  end.

(** ** Generation client: [editImageWithGemini] *)

Definition modelName : string := "gemini-2.5-flash-image".

(** [`data:${mimeType || 'image/png'};base64,${data}`]. *)
Definition dataUrl (i : InlineData) (payload : string) : string :=
  "data:" ++ orElse (mimeType i) "image/png" ++ ";base64," ++ payload.

(** The [for (const part of parts)] loop: the first part whose
    [inlineData.data] is truthy decides the returned data URL. *)
Fixpoint scanParts (ps : list Part) : option string :=
  match ps with
  | [] => None
  | part :: rest =>
      match inlineData part with
      | Some i =>
          match data i with
          | Some d => if truthy d then Some (dataUrl i d) else scanParts rest
          | None => scanParts rest
          end
      | None => scanParts rest
      end
  end.

(** [response.candidates?.[0]?.content?.parts?.find(p => p.text)?.text]. *)
Definition firstText (response : Response) : option string :=
  match candidates response with
  | Some (c0 :: _) =>
      match content c0 with
      | Some ct =>
          match parts ct with
          | Some ps =>
              match find (fun p => truthyOpt (text p)) ps with
              | Some p => text p
              | None => None
              end
          | None => None
          end
      | None => None
      end
  | _ => None
  end.

(** The double-quote character of the message template. *)
Definition dquote : string := String "034"%char EmptyString.

(** [`The model returned text instead of an image: "${textPart.slice(0, 100)}..."`]. *)
Definition refusalMessage (textPart : string) : string :=
  "The model returned text instead of an image: " ++ dquote
    ++ slice0 100 textPart ++ "..." ++ dquote.

(** Lines 55-67: the search for an image in the first candidate.  Reading
    [.parts] of a missing [content] raises a [TypeError]. *)
Definition findImage (response : Response) : Settled (option string) :=
  match candidates response with
  | Some (c0 :: _) =>
      match content c0 with
      | Some ct =>
          match parts ct with
          | Some ps => Fulfilled (scanParts ps)
          | None => Fulfilled None
          end
      | None => Rejected typeError
      end
  | _ => Fulfilled None
  end.

(** Lines 55-75: what the [try] block does with a response. *)
Definition interpretResponse (response : Response) : Settled string :=
  match findImage response with
  | Rejected e => Rejected e
  | Fulfilled (Some url) => Fulfilled url
  | Fulfilled None =>
      match firstText response with
      | Some textPart =>
          if truthy textPart then Rejected (newError (refusalMessage textPart))
          else Rejected (newError "No image data received from Gemini.")
      | None => Rejected (newError "No image data received from Gemini.")
      end
  end.

(** The request of lines 44-52: the image part first, the prompt second. *)
Definition buildRequest (imagePart : Part) (prompt : string) : Request :=
  {| model := modelName;
     contents := [imagePart; {| inlineData := None; text := Some prompt |}] |}.

(** The body of the [try] block. *)
Definition tryBlock (io : Platform) (imageFile : File) (prompt : string) : Settled string :=
  match fileToPart (readAsDataURL io) imageFile with
  | Rejected e => Rejected e
  | Fulfilled imagePart =>
      match generateContent io (buildRequest imagePart prompt) with
      | Rejected e => Rejected e
      | Fulfilled response => interpretResponse response
      end
  end.

(** The [catch] clause: [throw new Error(error.message || "Failed to generate image.")].
    On [null] or [undefined], reading [error.message] raises a [TypeError],
    and that is what leaves the clause. *)
Definition catchClause (error : Fault) : Thrown :=
  match error with
  | Nullish => typeErrorOnMessage
  | Obj o => newError (orElse (message o) "Failed to generate image.")
  end.

Definition editImageWithGemini (io : Platform) (imageFile : File) (prompt : string)
  : Settled string :=
  match tryBlock io imageFile prompt with
  | Fulfilled url => Fulfilled url
  | Rejected error => Rejected (catchClause error)
  end.

(** ** Session state: [App] *)

Inductive AppStatus := IDLE | PROCESSING | SUCCESS | ERROR.

Record ImageState := { file : option File; previewUrl : option string }.

(** The five [useState] cells of the component. *)
Record AppState := {
  inputImage : ImageState;
  resultImage : option string;
  prompt : string;
  status : AppStatus;
  errorMsg : option string
}.

Definition setInputImage (v : ImageState) (s : AppState) : AppState :=
  {| inputImage := v; resultImage := resultImage s; prompt := prompt s;
     status := status s; errorMsg := errorMsg s |}.

Definition setResultImage (v : option string) (s : AppState) : AppState :=
  {| inputImage := inputImage s; resultImage := v; prompt := prompt s;
     status := status s; errorMsg := errorMsg s |}.

Definition setPrompt (v : string) (s : AppState) : AppState :=
  {| inputImage := inputImage s; resultImage := resultImage s; prompt := v;
     status := status s; errorMsg := errorMsg s |}.

Definition setStatus (v : AppStatus) (s : AppState) : AppState :=
  {| inputImage := inputImage s; resultImage := resultImage s; prompt := prompt s;
     status := v; errorMsg := errorMsg s |}.

Definition setErrorMsg (v : option string) (s : AppState) : AppState :=
  {| inputImage := inputImage s; resultImage := resultImage s; prompt := prompt s;
     status := status s; errorMsg := v |}.

(** The state of the first render. *)
Definition initialState : AppState :=
  {| inputImage := {| file := None; previewUrl := None |};
     resultImage := None; prompt := ""; status := IDLE; errorMsg := None |}.

(** [handleImageSelect]; [url] is what [URL.createObjectURL] hands out. *)
Definition handleImageSelect (f : File) (url : string) (s : AppState) : AppState :=
  setErrorMsg None
    (setStatus IDLE
       (setResultImage None
          (setInputImage {| file := Some f; previewUrl := Some url |} s))).

(** The arguments of one [editImageWithGemini] call. *)
Record Call := { callFile : File; callPrompt : string }.

(** [handleGenerate] up to its [await] (lines 28-35): the guard, the three
    state updates, and the outbound call it starts, if any. *)
Definition handleGenerate_start (s : AppState) : AppState * option Call :=
  match file (inputImage s) with
  | None => (s, None)
  | Some f =>
      if negb (truthy (trim (prompt s))) then (s, None)
      else (setResultImage None (setErrorMsg None (setStatus PROCESSING s)),
            Some {| callFile := f; callPrompt := prompt s |})
  end.

(** [handleGenerate] after its [await] (lines 36-41): what is done with the
    settled promise, on the state as it is at that time. *)
Definition handleGenerate_resume (outcome : Settled string) (s : AppState) : AppState :=
  match outcome with
  | Fulfilled generatedImageDataUrl =>
      setStatus SUCCESS (setResultImage (Some generatedImageDataUrl) s)
  | Rejected err =>
      match err with
      | Obj o =>
          setErrorMsg (Some (orElse (message o) "An unexpected error occurred."))
            (setStatus ERROR s)
      | Nullish =>
          (* [err.message] raises after [setStatus(AppStatus.ERROR)] *)
          setStatus ERROR s
      end
  end.

(** [handleGenerate] run to completion with nothing in between. *)
Definition handleGenerate (io : Platform) (s : AppState) : AppState :=
  match handleGenerate_start s with
  | (s1, None) => s1
  | (s1, Some c) =>
      handleGenerate_resume (editImageWithGemini io (callFile c) (callPrompt c)) s1
  end.

Definition handleReset (s : AppState) : AppState :=
  setStatus IDLE (setResultImage None (setPrompt "" s)).

(** ** The session as a transition system

    The component together with the generation calls it has started: [log]
    counts every call ever started, [inflight] holds those whose promise
    has not settled yet, oldest first. *)

Record Session := {
  app : AppState;
  inflight : list Call;
  log : list Call
}.

Inductive Event :=
| SelectImage (f : File) (url : string)
| SetInstruction (t : string)
| Submit
| Reset
| Settle (i : nat) (io : Platform).

Definition onApp (f : AppState -> AppState) (w : Session) : Session :=
  {| app := f (app w); inflight := inflight w; log := log w |}.

(** Removes the element at index [i]. *)
Fixpoint removeAt {A : Type} (i : nat) (l : list A) : list A :=
  match l, i with
  | [], _ => []
  | _ :: l', 0 => l'
  | x :: l', S i' => x :: removeAt i' l'
  end.

Definition step (e : Event) (w : Session) : Session :=
  match e with
  | SelectImage f url => onApp (handleImageSelect f url) w
  | SetInstruction t => onApp (setPrompt t) w
  | Reset => onApp handleReset w
  | Submit =>
      match handleGenerate_start (app w) with
      | (s1, None) => {| app := s1; inflight := inflight w; log := log w |}
      | (s1, Some c) =>
          {| app := s1; inflight := inflight w ++ [c]; log := log w ++ [c] |}
      end
  | Settle i io =>
      match nth_error (inflight w) i with
      | None => w
      | Some c =>
          {| app := handleGenerate_resume
                      (editImageWithGemini io (callFile c) (callPrompt c)) (app w);
             inflight := removeAt i (inflight w);
             log := log w |}
      end
  end.

Definition run (es : list Event) (w : Session) : Session :=
  fold_left (fun w e => step e w) es w.

Definition startSession (s : AppState) : Session :=
  {| app := s; inflight := []; log := [] |}.

(** ** The platform's Base64 and Data URL formats

    [FileReader.readAsDataURL] is a browser operation, not code of the
    application.  The File API defines its result as a Data URL holding the
    blob's type and the Base64 encoding (RFC 4648, with padding) of its
    bytes; this module states that format, and the decoder the round trip
    is measured against. *)

Module Base64.

Local Open Scope N_scope.

(** The character of a 6-bit value in the alphabet [A-Za-z0-9+/]. *)
Definition encodeSextet (n : N) : ascii :=
  if n <? 26 then ascii_of_N (65 + n)
  else if n <? 52 then ascii_of_N (71 + n)
  else if n <? 62 then ascii_of_N (n - 4)
  else if n =? 62 then "+"%char
  else "/"%char.

Definition decodeSextet (c : ascii) : option N :=
  let k := N_of_ascii c in
  if (65 <=? k) && (k <=? 90) then Some (k - 65)
  else if (97 <=? k) && (k <=? 122) then Some (k - 71)
  else if (48 <=? k) && (k <=? 57) then Some (k + 4)
  else if k =? 43 then Some 62
  else if k =? 47 then Some 63
  else None.

Definition pad : ascii := "="%char.

Definition isPad (c : ascii) : bool := Ascii.eqb c pad.

(** Three bytes become four characters; a last group of one or two bytes
    is padded with [=]. *)
Fixpoint encode (bs : list byte) : string :=
  match bs with
  | [] => EmptyString
  | [b1] =>
      let n1 := Byte.to_N b1 in
      String (encodeSextet (n1 / 4))
        (String (encodeSextet ((n1 mod 4) * 16))
           (String pad (String pad EmptyString)))
  | [b1; b2] =>
      let n1 := Byte.to_N b1 in
      let n2 := Byte.to_N b2 in
      String (encodeSextet (n1 / 4))
        (String (encodeSextet ((n1 mod 4) * 16 + n2 / 16))
           (String (encodeSextet ((n2 mod 16) * 4))
              (String pad EmptyString)))
  | b1 :: b2 :: b3 :: rest =>
      let n1 := Byte.to_N b1 in
      let n2 := Byte.to_N b2 in
      let n3 := Byte.to_N b3 in
      String (encodeSextet (n1 / 4))
        (String (encodeSextet ((n1 mod 4) * 16 + n2 / 16))
           (String (encodeSextet ((n2 mod 16) * 4 + n3 / 64))
              (String (encodeSextet (n3 mod 64)) (encode rest))))
  end.

Definition isEmpty (s : string) : bool :=
  match s with
  | EmptyString => true
  | String _ _ => false
  end.

(** The byte [n], when [n] is one; [cons] on optional results. *)
Definition consByte (n : N) (tl : option (list byte)) : option (list byte) :=
  match Byte.of_N n, tl with
  | Some b, Some bs => Some (b :: bs)
  | _, _ => None
  end.

(** Four characters become three bytes; padding is accepted in the last
    group only. *)
Fixpoint decode (s : string) : option (list byte) :=
  match s with
  | EmptyString => Some []
  | String c1 (String c2 (String c3 (String c4 rest))) =>
      match decodeSextet c1, decodeSextet c2 with
      | Some s1, Some s2 =>
          if isPad c3 then
            if isPad c4 && isEmpty rest
            then consByte (s1 * 4 + s2 / 16) (Some [])
            else None
          else
            match decodeSextet c3 with
            | Some s3 =>
                if isPad c4 then
                  if isEmpty rest
                  then consByte (s1 * 4 + s2 / 16)
                         (consByte ((s2 mod 16) * 16 + s3 / 4) (Some []))
                  else None
                else
                  match decodeSextet c4 with
                  | Some s4 =>
                      consByte (s1 * 4 + s2 / 16)
                        (consByte ((s2 mod 16) * 16 + s3 / 4)
                           (consByte ((s3 mod 4) * 64 + s4) (decode rest)))
                  | None => None
                  end
            | None => None
            end
      | _, _ => None
      end
  | _ => None
  end.

End Base64.

(** The Data URL the File API packages for a blob that was read to the
    end: [data:<type>;base64,<payload>]. *)
Definition fileDataUrl (f : File) : string :=
  "data:" ++ type f ++ ";base64," ++ Base64.encode (bytes f).

(** The reader on which every read completes. *)
Definition completeReader (f : File) : ReadOutcome := LoadEnd (Some (fileDataUrl f)).

(** [s] has no occurrence of the character [c]. *)
Fixpoint lacks (c : ascii) (s : string) : bool :=
  match s with
  | EmptyString => true
  | String x s' => negb (Ascii.eqb x c) && lacks c s'
  end.

(** ** Vocabulary of the statements *)

(** A part that carries inline image data: [inlineData.data] is a
    non-empty string. *)
Definition carriesImage (p : Part) : bool :=
  match inlineData p with
  | Some i => truthyOpt (data i)
  | None => false
  end.

(** A part that carries text: [text] is a non-empty string. *)
Definition carriesText (p : Part) : bool := truthyOpt (text p).

(** The parts of a candidate, when it has any. *)
Definition candidateParts (c : Candidate) : option (list Part) :=
  match content c with
  | Some ct => parts ct
  | None => None
  end.

(** The parts of the first candidate. *)
Definition firstCandidateParts (r : Response) : option (list Part) :=
  match candidates r with
  | Some (c0 :: _) => candidateParts c0
  | _ => None
  end.

(** The remote service answered the call for [f] and [p] with [r]: the
    file was encoded and the request built from it was fulfilled. *)
Definition respondsWith (io : Platform) (f : File) (p : string) (r : Response) : Prop :=
  exists imagePart,
    fileToPart (readAsDataURL io) f = Fulfilled imagePart /\
    generateContent io (buildRequest imagePart p) = Fulfilled r.

(** A platform on which reads complete and the service answers [r]. *)
Definition answering (r : Response) : Platform :=
  {| readAsDataURL := completeReader; generateContent := fun _ => Fulfilled r |}.

Definition sampleFile : File := {| bytes := [x41]; type := "image/jpeg" |}.

Definition imagePartOf (mime : option string) (payload : string) : Part :=
  {| inlineData := Some {| data := Some payload; mimeType := mime |}; text := None |}.

Definition textPartOf (t : string) : Part :=
  {| inlineData := None; text := Some t |}.

Definition candidateOf (ps : list Part) : Candidate :=
  {| content := Some {| parts := Some ps |} |}.

(** ** Sample values *)

(** A refusal longer than 100 characters. *)
Definition refusalText : string :=
  "Sorry, I can't do that because of policy reasons and more explanation text padding to exceed one hundred characters total length here".

(** A response whose first candidate only carries text while its second
    candidate carries an image. *)
Definition imageInSecondCandidate : Response :=
  {| candidates := Some [candidateOf [textPartOf "Sorry"];
                         candidateOf [imagePartOf (Some "image/jpeg") "QQ=="]] |}.

(** A response whose only candidate has no [content]. *)
Definition candidateWithoutContent : Response :=
  {| candidates := Some [{| content := None |}] |}.

(** A one-byte file whose declared type contains a comma. *)
Definition commaTypedFile : File := {| bytes := [x41]; type := "image/png,x" |}.

(** A state that is ready for a submit: an image and an instruction. *)
Definition readyState (phase : AppStatus) : AppState :=
  {| inputImage := {| file := Some sampleFile; previewUrl := Some "blob:preview-1" |};
     resultImage := None; prompt := "make it blue"; status := phase;
     errorMsg := None |}.

Definition sampleCall : Call :=
  {| callFile := sampleFile; callPrompt := "make it blue" |}.

(** The session has reached a resting state with its outcome in place. *)
Definition settled (s : AppState) : Prop :=
  (status s = SUCCESS /\ exists url, resultImage s = Some url /\ url <> "") \/
  (status s = ERROR /\ exists m, errorMsg s = Some m /\ m <> "").

(** A response with one image. *)
Definition imageResponse : Response :=
  {| candidates := Some [candidateOf [imagePartOf (Some "image/jpeg") "QQ=="]] |}.

(** A platform on which reads complete and the remote call is rejected
    with [fault]. *)
Definition rejecting (fault : Fault) : Platform :=
  {| readAsDataURL := completeReader; generateContent := fun _ => Rejected fault |}.

(** ** The upload widget: [ImageUploader] *)

(** [s.startsWith(p)]. *)
Fixpoint startsWith (s p : string) {struct p} : bool :=
  match p, s with
  | EmptyString, _ => true
  | String _ _, EmptyString => false
  | String x p', String c s' => Ascii.eqb c x && startsWith s' p'
  end.

(** [handleFileChange]: [e.target.files], when it has a first entry, is
    handed to the [onImageSelected] callback; [A] is what the callback
    acts on. *)
Definition handleFileChange {A : Type} (onImageSelected : File -> A -> A)
    (files : option (list File)) (a : A) : A :=
  match files with
  | Some (f :: _) => onImageSelected f a
  | _ => a
  end.

(** [handleDrop]: the first dropped file is handed to the callback when
    its type starts with [image/]. *)
Definition handleDrop {A : Type} (onImageSelected : File -> A -> A)
    (files : option (list File)) (a : A) : A :=
  match files with
  | Some (f :: _) =>
      if startsWith (type f) "image/" then onImageSelected f a else a
  | _ => a
  end.

(** What the user does with the page.  [url] is what
    [URL.createObjectURL] would hand out for that gesture. *)
Inductive Gesture :=
| PickFiles (files : option (list File)) (url : string)
| DropFiles (files : option (list File)) (url : string)
| Other (e : Event).

(** The widget is mounted with [onImageSelected={handleImageSelect}]. *)
Definition play (g : Gesture) (w : Session) : Session :=
  match g with
  | PickFiles files url => handleFileChange (fun f => step (SelectImage f url)) files w
  | DropFiles files url => handleDrop (fun f => step (SelectImage f url)) files w
  | Other e => step e w
  end.

Definition playAll (gs : list Gesture) (w : Session) : Session :=
  fold_left (fun w g => play g w) gs w.

(** A gesture that can select an image through the drop zone only. *)
Definition dropOnly (g : Gesture) : bool :=
  match g with
  | PickFiles _ _ => false
  | DropFiles _ _ => true
  | Other (SelectImage _ _) => false
  | Other _ => true
  end.

(** ** Object URLs of the previews

    [handleImageSelect] revokes the previous preview URL, when there is
    one, before it creates the next; [objectUrls] are the URLs created and
    not revoked. *)

Record Browser := {
  page : Session;
  objectUrls : list string
}.

(** [URL.revokeObjectURL(u)]. *)
Definition revokeObjectURL (u : string) (urls : list string) : list string :=
  filter (fun v => negb (String.eqb v u)) urls.

(** The object URLs after [handleImageSelect] ran in state [s]. *)
Definition handleImageSelect_urls (url : string) (s : AppState) (urls : list string)
  : list string :=
  url :: (if truthyOpt (previewUrl (inputImage s))
          then match previewUrl (inputImage s) with
               | Some old => revokeObjectURL old urls
               | None => urls
               end
          else urls).

Definition stepBrowser (e : Event) (b : Browser) : Browser :=
  {| page := step e (page b);
     objectUrls := match e with
                   | SelectImage _ url =>
                       handleImageSelect_urls url (app (page b)) (objectUrls b)
                   | _ => objectUrls b
                   end |}.

Definition runBrowser (es : list Event) (b : Browser) : Browser :=
  fold_left (fun b e => stepBrowser e b) es b.

Definition startBrowser : Browser :=
  {| page := startSession initialState; objectUrls := [] |}.

(** The URLs handed out by [URL.createObjectURL] are not empty. *)
Definition urlsNonEmpty (es : list Event) : Prop :=
  Forall (fun e => match e with
                   | SelectImage _ url => url <> ""
                   | _ => True
                   end) es.

(** ** What [App] renders *)

(** The three alternatives of the result panel. *)
Inductive ResultPanel :=
| Dreaming
| Generated (src : string)
| Placeholder.

(** The parts of the rendered page that depend on the state. *)
Record View := {
  currentImage : option string;
  generateIsLoading : bool;
  generateDisabled : bool;
  clearShown : bool;
  errorBox : option string;
  resultPanel : ResultPanel;
  tipsShown : bool
}.

Definition isProcessing (v : AppStatus) : bool :=
  match v with
  | PROCESSING => true
  | _ => false
  end.

Definition render (s : AppState) : View :=
  {| currentImage := previewUrl (inputImage s);
     generateIsLoading := isProcessing (status s);
     generateDisabled :=
       match file (inputImage s) with
       | None => true
       | Some _ => negb (truthy (trim (prompt s)))
       end;
     clearShown := truthyOpt (resultImage s);
     errorBox := if truthyOpt (errorMsg s) then errorMsg s else None;
     resultPanel :=
       if isProcessing (status s) then Dreaming
       else match resultImage s with
            | Some src => if truthy src then Generated src else Placeholder
            | None => Placeholder
            end;
     tipsShown := negb (truthyOpt (resultImage s)) && negb (isProcessing (status s)) |}.

(** ** Preset instructions *)

Record Preset := { label : string; presetText : string }.

Definition presets : list Preset :=
  [ {| label := "Retro Filter";
       presetText := "Add a vintage 80s retro filter to this image, making it look like a polaroid." |};
    {| label := "Cyberpunk";
       presetText := "Transform this into a cyberpunk style with neon lights and high contrast." |};
    {| label := "Sketch";
       presetText := "Convert this image into a detailed pencil sketch." |};
    {| label := "Concept Art Breakdown";
       presetText := "Generate a 'Concept Art Depth Breakdown' based on the subject. Place the subject in the center. Surround them with: 1. Clothing layer breakdown (including inner layers). 2. Expression sheet (3-4 faces). 3. Texture close-ups (skin, fabric). 4. Bag content breakdown (what is in their bag?). Maintain a high-quality 2D concept art style on a parchment background." |} ].

(** ** Reachable sessions *)

(** The sessions the page can be in: those a sequence of events leads to
    from the first render. *)
Definition sessionAfter (es : list Event) : Session :=
  run es (startSession initialState).

(** Every character of [s] is white space. *)
Fixpoint blank (s : string) : bool :=
  match s with
  | EmptyString => true
  | String c s' => isWhiteSpace c && blank s'
  end.

(** The event selects an image. *)
Definition selectsImage (e : Event) : bool :=
  match e with
  | SelectImage _ _ => true
  | _ => false
  end.

(** The phase and the outcome fields of a session agree. *)
Definition coherent (w : Session) : Prop :=
  match status (app w) with
  | PROCESSING =>
      resultImage (app w) = None /\ errorMsg (app w) = None /\ inflight w <> []
  | IDLE => resultImage (app w) = None
  | SUCCESS => exists url, resultImage (app w) = Some url
  | ERROR => exists m, errorMsg (app w) = Some m
  end /\
  (forall url, resultImage (app w) = Some url -> startsWith url "data:" = true) /\
  (forall m, errorMsg (app w) = Some m -> m <> "").

(** Where the image, the instruction and the calls of a session come
    from, in terms of the events [es] that led to it. *)
Definition selected (es : list Event) (f : File) : Prop :=
  exists url, In (SelectImage f url) es.

Definition traced (es : list Event) (w : Session) : Prop :=
  (forall f, file (inputImage (app w)) = Some f -> selected es f) /\
  (prompt (app w) = "" \/ In (SetInstruction (prompt (app w))) es) /\
  (forall c, In c (log w) ->
     trim (callPrompt c) <> "" /\ selected es (callFile c) /\
     In (SetInstruction (callPrompt c)) es) /\
  incl (inflight w) (log w) /\
  (file (inputImage (app w)) = None <-> previewUrl (inputImage (app w)) = None).

(** The preview URL of a state, as a list. *)
Definition previewUrls (s : AppState) : list string :=
  match previewUrl (inputImage s) with
  | Some u => [u]
  | None => []
  end.

(** The file of the state, if any, and the files of all calls have an
    image type. *)
Definition imagesOnly (w : Session) : Prop :=
  (forall f, file (inputImage (app w)) = Some f -> startsWith (type f) "image/" = true) /\
  (forall c, In c (log w) -> startsWith (type (callFile c)) "image/" = true).

(** * Properties *)

(** ** Strings *)

Section StringFacts.

Lemma truthy_true_iff (s : string) : truthy s = true <-> s <> "".
Proof. destruct s; simpl; split; congruence. Qed.

Lemma truthy_false_iff (s : string) : truthy s = false <-> s = "".
Proof. destruct s; simpl; split; congruence. Qed.

Lemma orElse_nonempty (v : option string) (d : string) : d <> "" -> orElse v d <> "".
Proof.
  intros Hd. unfold orElse. destruct v as [s|]; [|exact Hd].
  destruct (truthy s) eqn:E; [|exact Hd]. now apply truthy_true_iff.
Qed.

Lemma orElse_available (m d : string) : m <> "" -> orElse (Some m) d = m.
Proof. intros H. apply truthy_true_iff in H. unfold orElse. now rewrite H. Qed.

Lemma slice0_prefix (n : nat) (s : string) :
  exists rest, s = slice0 n s ++ rest.
Proof.
  unfold slice0. revert n. induction s as [|c s IH]; intros n.
  - exists "". now destruct n.
  - destruct n as [|n]; simpl.
    + now exists (String c s).
    + destruct (IH n) as [rest Hr]. exists rest. now rewrite <- Hr.
Qed.

Lemma slice0_length (n : nat) (s : string) :
  String.length (slice0 n s) = Nat.min n (String.length s).
Proof.
  unfold slice0. revert n. induction s as [|c s IH]; intros n.
  - now destruct n.
  - destruct n as [|n]; simpl; [reflexivity|]. now rewrite IH.
Qed.

Lemma lacks_app (c : ascii) (a b : string) :
  lacks c (a ++ b) = lacks c a && lacks c b.
Proof.
  induction a as [|x a IH]; simpl; [reflexivity|].
  rewrite IH. now rewrite andb_assoc.
Qed.

(** Splitting a string that has no separator gives the string itself. *)
Lemma split_lacks (sep : ascii) (s : string) :
  lacks sep s = true -> split sep s = [s].
Proof.
  induction s as [|c s IH]; simpl; [reflexivity|].
  intros H. apply andb_true_iff in H as [Hc Hs].
  apply negb_true_iff in Hc. rewrite Hc, (IH Hs). reflexivity.
Qed.

(** The first piece of a split ends at the first separator. *)
Lemma split_at_first (sep : ascii) (a b : string) :
  lacks sep a = true ->
  split sep (a ++ String sep b) = a :: split sep b.
Proof.
  induction a as [|c a IH]; simpl.
  - intros _. now rewrite Ascii.eqb_refl.
  - intros H. apply andb_true_iff in H as [Hc Ha].
    apply negb_true_iff in Hc. rewrite Hc, (IH Ha). reflexivity.
Qed.

End StringFacts.

(** ** Generation client: how responses are read *)

Section ClientFacts.

Lemma answering_respondsWith (r : Response) (f : File) (p : string) :
  respondsWith (answering r) f p r.
Proof. unfold respondsWith, answering, fileToPart, completeReader. simpl. eauto. Qed.

Lemma respondsWith_tryBlock io f p r :
  respondsWith io f p r -> tryBlock io f p = interpretResponse r.
Proof.
  intros (imagePart & Hpart & Hresp). unfold tryBlock. now rewrite Hpart, Hresp.
Qed.

(** The loop returns the Data URL of the first part that carries an image. *)
Lemma scanParts_find (ps : list Part) :
  scanParts ps =
  match find carriesImage ps with
  | Some q =>
      match inlineData q with
      | Some i => option_map (dataUrl i) (data i)
      | None => None
      end
  | None => None
  end.
Proof.
  induction ps as [|q ps IH]; simpl; [reflexivity|].
  unfold carriesImage at 1.
  destruct (inlineData q) as [i|] eqn:Ei; [|exact IH].
  destruct (data i) as [d|] eqn:Ed; simpl; [|exact IH].
  destruct (truthy d); [|exact IH].
  now rewrite Ei, Ed.
Qed.

Lemma find_none_existsb {A : Type} (f : A -> bool) (l : list A) :
  existsb f l = false -> find f l = None.
Proof.
  induction l as [|x l IH]; simpl; [reflexivity|].
  intros H. apply orb_false_iff in H as [Hx Hl]. now rewrite Hx, IH.
Qed.

Lemma dataUrl_nonempty (i : InlineData) (d : string) : dataUrl i d <> "".
Proof. unfold dataUrl. simpl. discriminate. Qed.

Lemma scanParts_nonempty (ps : list Part) (url : string) :
  scanParts ps = Some url -> url <> "".
Proof.
  induction ps as [|q ps IH]; simpl; [discriminate|].
  destruct (inlineData q) as [i|]; [|exact IH].
  destruct (data i) as [d|]; [|exact IH].
  destruct (truthy d); [|exact IH].
  intros [= <-]. apply dataUrl_nonempty.
Qed.

(** Whatever is returned to the caller is a non-empty Data URL. *)
Lemma editImageWithGemini_fulfilled_nonempty io f p url :
  editImageWithGemini io f p = Fulfilled url -> url <> "".
Proof.
  unfold editImageWithGemini, tryBlock.
  destruct (fileToPart _ f) as [imagePart|e]; [|discriminate].
  destruct (generateContent io _) as [r|e]; [|discriminate].
  unfold interpretResponse, findImage.
  destruct (candidates r) as [[|c0 cs]|]; simpl;
    try (destruct (firstText r) as [t|]; [destruct (truthy t)|]; discriminate).
  destruct (content c0) as [ct|]; [|discriminate].
  destruct (parts ct) as [ps|].
  - destruct (scanParts ps) as [u|] eqn:Es.
    + intros [= <-]. eapply scanParts_nonempty; eauto.
    + destruct (firstText r) as [t|]; [destruct (truthy t)|]; discriminate.
  - destruct (firstText r) as [t|]; [destruct (truthy t)|]; discriminate.
Qed.

(** Whatever is thrown to the caller is an [Error] with a non-empty message. *)
Lemma editImageWithGemini_rejected_message io f p err :
  editImageWithGemini io f p = Rejected err ->
  exists m, err = newError m /\ m <> "".
Proof.
  unfold editImageWithGemini.
  destruct (tryBlock io f p) as [url|fault]; [discriminate|].
  intros [= <-]. unfold catchClause. destruct fault as [|o].
  - eexists; split; [reflexivity|]. discriminate.
  - eexists; split; [reflexivity|]. apply orElse_nonempty. discriminate.
Qed.

End ClientFacts.

Section ResponseReading.

Variables (io : Platform) (imageFile : File) (instruction : string).

(** When the first candidate has parts, both searches run over them. *)
Lemma firstCandidateParts_searches (r : Response) (ps : list Part) :
  firstCandidateParts r = Some ps ->
  findImage r = Fulfilled (scanParts ps) /\
  firstText r = match find carriesText ps with
                | Some q => text q
                | None => None
                end.
Proof.
  unfold firstCandidateParts, candidateParts, findImage, firstText.
  destruct (candidates r) as [[|c0 cs]|]; try discriminate.
  destruct (content c0) as [ct|]; [|discriminate].
  intros ->. split; reflexivity.
Qed.

(** An [Error] thrown inside the [try] block with a non-empty message
    reaches the caller with that message. *)
Lemma rethrown_as_is (m : string) :
  m <> "" ->
  tryBlock io imageFile instruction = Rejected (newError m) ->
  editImageWithGemini io imageFile instruction = Rejected (newError m).
Proof.
  intros Hm Ht. unfold editImageWithGemini. rewrite Ht.
  unfold catchClause. simpl message. now rewrite orElse_available.
Qed.

Lemma refusalMessage_nonempty (t : string) : refusalMessage t <> "".
Proof. unfold refusalMessage. simpl. discriminate. Qed.

(** With the first candidate's content in place, a response without image
    and without text is reported as carrying no image data. *)
Lemma nothing_usable_in_parts (r : Response) :
  respondsWith io imageFile instruction r ->
  match candidates r with
  | Some (c0 :: _) =>
      exists ct, content c0 = Some ct /\
        match parts ct with
        | Some ps => existsb carriesImage ps = false /\ existsb carriesText ps = false
        | None => True
        end
  | _ => True
  end ->
  editImageWithGemini io imageFile instruction =
  Rejected (newError "No image data received from Gemini.").
Proof.
  intros Hr Hshape. apply rethrown_as_is; [discriminate|].
  rewrite (respondsWith_tryBlock _ _ _ _ Hr).
  unfold interpretResponse, findImage, firstText.
  destruct (candidates r) as [[|c0 cs]|]; try reflexivity.
  destruct Hshape as (ct & -> & Hparts).
  destruct (parts ct) as [ps|]; [|reflexivity].
  destruct Hparts as [Himg Htxt].
  rewrite scanParts_find, (find_none_existsb _ _ Himg).
  fold carriesText. now rewrite (find_none_existsb _ _ Htxt).
Qed.

End ResponseReading.

(** ** Claims about the generation client *)

(** C3 at a remote call that is rejected with [undefined]: the catch
    clause reads [error.message], which raises a [TypeError], and the
    caller receives that error with the engine's message instead of the
    fallback ["Failed to generate image."]. *)
Theorem nullish_rejection_escapes :
  tryBlock (rejecting Nullish) sampleFile "make it blue" = Rejected Nullish /\
  editImageWithGemini (rejecting Nullish) sampleFile "make it blue"
    = Rejected (newError "Cannot read properties of undefined (reading 'message')") /\
  editImageWithGemini (rejecting Nullish) sampleFile "make it blue"
    <> Rejected (newError "Failed to generate image.").
Proof. repeat split. discriminate. Qed.

(** X23. [editImageWithGemini] settles for every file, instruction and
    platform behaviour, and what it throws is always an error object with
    a non-empty message.  A fault that is an object (a failed read, a read
    that ends without a string, a rejected remote call, a response whose
    first candidate has no content) reaches the caller as an [Error] with
    the fault's message, or ["Failed to generate image."] when it has
    none; a fault that is [null] or [undefined] reaches the caller as the
    [TypeError] of reading its [message]. *)
Theorem editImageWithGemini_failures
    (io : Platform) (imageFile : File) (instruction : string) :
  ((exists url, editImageWithGemini io imageFile instruction = Fulfilled url) \/
   (exists m, editImageWithGemini io imageFile instruction = Rejected (newError m) /\
              m <> "")) /\
  match tryBlock io imageFile instruction with
  | Fulfilled url => editImageWithGemini io imageFile instruction = Fulfilled url
  | Rejected (Obj fault) =>
      editImageWithGemini io imageFile instruction =
      Rejected (newError (orElse (message fault) "Failed to generate image."))
  | Rejected Nullish =>
      editImageWithGemini io imageFile instruction = Rejected typeErrorOnMessage
  end /\
  match readAsDataURL io imageFile with
  | ReadError event => tryBlock io imageFile instruction = Rejected event
  | LoadEnd None =>
      tryBlock io imageFile instruction = Rejected (newError "Failed to read file")
  | LoadEnd (Some _) =>
      exists imagePart,
        fileToPart (readAsDataURL io) imageFile = Fulfilled imagePart /\
        match generateContent io (buildRequest imagePart instruction) with
        | Rejected fault => tryBlock io imageFile instruction = Rejected fault
        | Fulfilled r =>
            match candidates r with
            | Some (c0 :: _) =>
                match content c0 with
                | None => tryBlock io imageFile instruction = Rejected typeError
                | Some _ => tryBlock io imageFile instruction = interpretResponse r
                end
            | _ => tryBlock io imageFile instruction = interpretResponse r
            end
        end
  end.
Proof.
  split; [|split].
  - destruct (editImageWithGemini io imageFile instruction) as [url|err] eqn:E.
    + left. now exists url.
    + right. destruct (editImageWithGemini_rejected_message _ _ _ _ E) as (m & -> & Hm).
      now exists m.
  - unfold editImageWithGemini, catchClause.
    now destruct (tryBlock io imageFile instruction) as [url|[|fault]].
  - unfold tryBlock, fileToPart.
    destruct (readAsDataURL io imageFile) as [[result|]|event]; try reflexivity.
    eexists. split; [reflexivity|].
    destruct (generateContent io _) as [r|fault]; [|reflexivity].
    destruct (candidates r) as [[|c0 cs]|] eqn:Ec; try reflexivity.
    destruct (content c0) eqn:Ect; [reflexivity|].
    unfold interpretResponse, findImage. now rewrite Ec, Ect.
Qed.

Lemma editImageWithGemini_failures_witness :
  editImageWithGemini (rejecting {| message := None |}) sampleFile "make it blue"
    = Rejected (newError "Failed to generate image.") /\
  editImageWithGemini (rejecting (newError "fetch failed")) sampleFile "make it blue"
    = Rejected (newError "fetch failed").
Proof.
  split.
  - exact (proj1 (proj2 (editImageWithGemini_failures
             (rejecting {| message := None |}) sampleFile "make it blue"))).
  - exact (proj1 (proj2 (editImageWithGemini_failures
             (rejecting (newError "fetch failed")) sampleFile "make it blue"))).
Defined.

(** C5. When the first candidate's parts carry no inline image data but do
    carry text, the call fails with the message
    [The model returned text instead of an image: "<prefix>..."], where
    [<prefix>] is the first 100 characters of the first such text (all of
    it when it is shorter); no image is returned. *)
Theorem refusal_text_truncated
    (io : Platform) (imageFile : File) (instruction : string)
    (r : Response) (ps : list Part) (q : Part) (t : string) :
  respondsWith io imageFile instruction r ->
  firstCandidateParts r = Some ps ->
  existsb carriesImage ps = false ->
  find carriesText ps = Some q ->
  text q = Some t ->
  editImageWithGemini io imageFile instruction =
    Rejected (newError ("The model returned text instead of an image: "
                          ++ dquote ++ slice0 100 t ++ "..." ++ dquote)) /\
  (forall url, editImageWithGemini io imageFile instruction <> Fulfilled url) /\
  String.length (slice0 100 t) = Nat.min 100 (String.length t) /\
  (exists rest, t = slice0 100 t ++ rest).
Proof.
  intros Hr Hps Himg Hq Ht.
  assert (E : editImageWithGemini io imageFile instruction =
              Rejected (newError (refusalMessage t))).
  { apply rethrown_as_is; [apply refusalMessage_nonempty|].
    rewrite (respondsWith_tryBlock _ _ _ _ Hr).
    destruct (firstCandidateParts_searches _ _ Hps) as [Hfind Htext].
    unfold interpretResponse. rewrite Hfind, Htext, Hq, Ht.
    rewrite scanParts_find, (find_none_existsb _ _ Himg).
    apply find_some in Hq as [_ Hc]. unfold carriesText in Hc.
    rewrite Ht in Hc. simpl in Hc. now rewrite Hc. }
  repeat split.
  - exact E.
  - intros url. rewrite E. discriminate.
  - apply slice0_length.
  - apply slice0_prefix.
Qed.

Lemma refusal_text_truncated_witness :
  editImageWithGemini
    (answering {| candidates := Some [candidateOf [textPartOf refusalText]] |})
    sampleFile "make it blue" =
  Rejected (newError ("The model returned text instead of an image: " ++ dquote
    ++ "Sorry, I can't do that because of policy reasons and more explanation text padding to exceed one hun"
    ++ "..." ++ dquote)).
Proof.
  exact (proj1 (refusal_text_truncated
    (answering {| candidates := Some [candidateOf [textPartOf refusalText]] |})
    sampleFile "make it blue" _ [textPartOf refusalText] (textPartOf refusalText)
    refusalText (answering_respondsWith _ _ _) eq_refl eq_refl eq_refl eq_refl)).
Defined.

(** C6, as stated, fails: a response can contain a candidate with an
    inline image part and still be answered by a failure, because only the
    first candidate is read. *)
Lemma image_in_later_candidate_ignored :
  (exists c ps,
      candidates imageInSecondCandidate = Some [candidateOf [textPartOf "Sorry"]; c] /\
      candidateParts c = Some ps /\
      existsb carriesImage ps = true) /\
  editImageWithGemini (answering imageInSecondCandidate) sampleFile "make it blue"
    = Rejected (newError (refusalMessage "Sorry")) /\
  editImageWithGemini (answering imageInSecondCandidate) sampleFile "make it blue"
    <> Fulfilled "data:image/jpeg;base64,QQ==".
Proof.
  split; [|split].
  - exists (candidateOf [imagePartOf (Some "image/jpeg") "QQ=="]).
    exists [imagePartOf (Some "image/jpeg") "QQ=="]. repeat split.
  - reflexivity.
  - discriminate.
Qed.

(** C6, amended. When the parts of the first candidate include a part with
    non-empty inline image data, the call returns the Data URL built from
    the first such part: [data:], its mime type ([image/png] when the type
    is missing or empty), [;base64,] and its payload.  For mime type
    [image/jpeg] and payload [QQ==] this is [data:image/jpeg;base64,QQ==]. *)
Theorem first_candidate_image_returned
    (io : Platform) (imageFile : File) (instruction : string)
    (r : Response) (ps : list Part) (q : Part) (i : InlineData) (d : string) :
  respondsWith io imageFile instruction r ->
  firstCandidateParts r = Some ps ->
  find carriesImage ps = Some q ->
  inlineData q = Some i ->
  data i = Some d ->
  editImageWithGemini io imageFile instruction =
    Fulfilled ("data:" ++ orElse (mimeType i) "image/png" ++ ";base64," ++ d) /\
  (mimeType i = None ->
   editImageWithGemini io imageFile instruction =
     Fulfilled ("data:image/png;base64," ++ d)) /\
  (mimeType i = Some "image/jpeg" -> d = "QQ==" ->
   editImageWithGemini io imageFile instruction =
     Fulfilled "data:image/jpeg;base64,QQ==").
Proof.
  intros Hr Hps Hq Hi Hd.
  assert (E : editImageWithGemini io imageFile instruction = Fulfilled (dataUrl i d)).
  { unfold editImageWithGemini. rewrite (respondsWith_tryBlock _ _ _ _ Hr).
    destruct (firstCandidateParts_searches _ _ Hps) as [Hfind _].
    unfold interpretResponse. rewrite Hfind, scanParts_find, Hq, Hi, Hd.
    reflexivity. }
  unfold dataUrl in E. split; [exact E|]. split.
  - intros Hm. rewrite E, Hm. reflexivity.
  - intros Hm ->. rewrite E, Hm. reflexivity.
Qed.

Lemma first_candidate_image_returned_witness :
  editImageWithGemini
    (answering {| candidates :=
        Some [candidateOf [textPartOf "Here you go";
                           imagePartOf (Some "image/jpeg") "QQ=="]] |})
    sampleFile "make it blue"
  = Fulfilled "data:image/jpeg;base64,QQ==".
Proof.
  exact (proj1 (first_candidate_image_returned
    (answering {| candidates :=
        Some [candidateOf [textPartOf "Here you go";
                           imagePartOf (Some "image/jpeg") "QQ=="]] |})
    sampleFile "make it blue" _
    [textPartOf "Here you go"; imagePartOf (Some "image/jpeg") "QQ=="]
    (imagePartOf (Some "image/jpeg") "QQ==")
    {| data := Some "QQ=="; mimeType := Some "image/jpeg" |} "QQ=="
    (answering_respondsWith _ _ _) eq_refl eq_refl eq_refl eq_refl)).
Defined.

(** C7 at a response that has a candidate and no parts: reading [.parts]
    of the missing content raises a [TypeError], and the failure carries
    that message, not the one of the no-image-data case. *)
Theorem candidate_without_content_type_error :
  firstCandidateParts candidateWithoutContent = None /\
  firstText candidateWithoutContent = None /\
  editImageWithGemini (answering candidateWithoutContent) sampleFile "make it blue"
    = Rejected (newError "Cannot read properties of undefined (reading 'parts')") /\
  editImageWithGemini (answering candidateWithoutContent) sampleFile "make it blue"
    <> Rejected (newError "No image data received from Gemini.").
Proof. repeat split. discriminate. Qed.

(** X4. The no-image-data failure, for every response that has no candidate,
    or whose first candidate has a content without parts or with parts
    that carry neither image data nor text. *)
Lemma no_image_data_received
    (io : Platform) (imageFile : File) (instruction : string) (r : Response) :
  respondsWith io imageFile instruction r ->
  (candidates r = None \/ candidates r = Some [] \/
   exists c0 cs ct, candidates r = Some (c0 :: cs) /\ content c0 = Some ct /\
     (parts ct = None \/
      exists ps, parts ct = Some ps /\
                 existsb carriesImage ps = false /\ existsb carriesText ps = false)) ->
  editImageWithGemini io imageFile instruction =
  Rejected (newError "No image data received from Gemini.").
Proof.
  intros Hr Hshape. apply (nothing_usable_in_parts _ _ _ r Hr).
  destruct Hshape as [-> | [-> | (c0 & cs & ct & -> & Hct & Hparts)]]; try exact I.
  exists ct. split; [exact Hct|].
  destruct Hparts as [-> | (ps & -> & Himg & Htxt)]; [exact I|now split].
Qed.

(** ** Base64 round trip *)

Module Base64Facts.
Import Base64.
Local Open Scope N_scope.

Ltac Zify.zify_post_hook ::= Z.to_euclidean_division_equations.

(** Case analysis on the comparisons that select the alphabet range. *)
Ltac ranges :=
  repeat match goal with
    | |- context [?a <? ?b] => destruct (N.ltb_spec a b)
    | |- context [?a <=? ?b] => destruct (N.leb_spec a b)
    | |- context [?a =? ?b] => destruct (N.eqb_spec a b)
    end; cbn [andb]; try lia.

Lemma encodeSextet_code (n : N) :
  n < 64 ->
  N_of_ascii (encodeSextet n) =
    if n <? 26 then 65 + n
    else if n <? 52 then 71 + n
    else if n <? 62 then n - 4
    else if n =? 62 then 43
    else 47.
Proof.
  intros Hn. unfold encodeSextet.
  destruct (N.ltb_spec n 26); [apply N_ascii_embedding; lia|].
  destruct (N.ltb_spec n 52); [apply N_ascii_embedding; lia|].
  destruct (N.ltb_spec n 62); [apply N_ascii_embedding; lia|].
  destruct (N.eqb_spec n 62); reflexivity.
Qed.

Lemma decodeSextet_encodeSextet (n : N) :
  n < 64 -> decodeSextet (encodeSextet n) = Some n.
Proof.
  intros Hn. unfold decodeSextet. rewrite (encodeSextet_code n Hn).
  destruct (N.ltb_spec n 26); [ranges; f_equal; lia|].
  destruct (N.ltb_spec n 52); [ranges; f_equal; lia|].
  destruct (N.ltb_spec n 62); [ranges; f_equal; lia|].
  destruct (N.eqb_spec n 62); [subst; reflexivity|].
  assert (n = 63) as -> by lia. reflexivity.
Qed.

(** No character of the alphabet has the code [k] when [k] is outside
    the alphabet's ranges. *)
Lemma encodeSextet_avoids (n k : N) :
  n < 64 -> k = 44 \/ k = 61 -> N_of_ascii (encodeSextet n) <> k.
Proof.
  intros Hn Hk. rewrite (encodeSextet_code n Hn). ranges.
Qed.

Lemma encodeSextet_not_pad (n : N) : n < 64 -> isPad (encodeSextet n) = false.
Proof.
  intros Hn. unfold isPad. apply Ascii.eqb_neq. intros E.
  apply (encodeSextet_avoids n 61 Hn); [now right|]. now rewrite E.
Qed.

Lemma encodeSextet_not_comma (n : N) :
  n < 64 -> Ascii.eqb (encodeSextet n) comma = false.
Proof.
  intros Hn. apply Ascii.eqb_neq. intros E.
  apply (encodeSextet_avoids n 44 Hn); [now left|]. now rewrite E.
Qed.

Lemma isPad_pad : isPad pad = true.
Proof. reflexivity. Qed.

Lemma byte_bound (b : byte) : Byte.to_N b < 256.
Proof. pose proof (Byte.to_N_bounded b). lia. Qed.

Lemma consByte_to_N (b : byte) (n : N) (tl : list byte) :
  n = Byte.to_N b -> consByte n (Some tl) = Some (b :: tl).
Proof. intros ->. unfold consByte. now rewrite Byte.of_to_N. Qed.

(** Induction on lists, three elements at a time. *)
Lemma list_ind3 {A : Type} (P : list A -> Prop) :
  P [] -> (forall a, P [a]) -> (forall a b, P [a; b]) ->
  (forall a b c l, P l -> P (a :: b :: c :: l)) ->
  forall l, P l.
Proof.
  intros H0 H1 H2 H3.
  assert (H : forall l, P l /\ (forall a, P (a :: l)) /\ (forall a b, P (a :: b :: l))).
  { induction l as [|x l (IH0 & IH1 & IH2)].
    - repeat split; auto.
    - repeat split; auto. }
  intros l. apply H.
Qed.

(** Decoding what was encoded gives the bytes back. *)
Lemma decode_encode (bs : list byte) : decode (encode bs) = Some bs.
Proof.
  induction bs as [|b1|b1 b2|b1 b2 b3 rest IH] using list_ind3.
  - reflexivity.
  - pose proof (byte_bound b1).
    cbn [encode decode].
    rewrite !decodeSextet_encodeSextet by lia.
    rewrite !isPad_pad. cbn [andb isEmpty].
    apply consByte_to_N. lia.
  - pose proof (byte_bound b1). pose proof (byte_bound b2).
    cbn [encode decode].
    rewrite !decodeSextet_encodeSextet by lia.
    rewrite encodeSextet_not_pad by lia.
    rewrite isPad_pad. cbn [isEmpty].
    rewrite (consByte_to_N b2) by lia.
    apply consByte_to_N. lia.
  - pose proof (byte_bound b1). pose proof (byte_bound b2).
    pose proof (byte_bound b3).
    cbn [encode decode]. fold (encode rest).
    rewrite !decodeSextet_encodeSextet by lia.
    rewrite !encodeSextet_not_pad by lia.
    rewrite IH.
    rewrite (consByte_to_N b3) by lia.
    rewrite (consByte_to_N b2) by lia.
    apply consByte_to_N. lia.
Qed.

(** The encoding never contains a comma. *)
Lemma encode_lacks_comma (bs : list byte) : lacks comma (encode bs) = true.
Proof.
  induction bs as [|b1|b1 b2|b1 b2 b3 rest IH] using list_ind3.
  - reflexivity.
  - pose proof (byte_bound b1). cbn [encode lacks].
    rewrite !encodeSextet_not_comma by lia. reflexivity.
  - pose proof (byte_bound b1). pose proof (byte_bound b2). cbn [encode lacks].
    rewrite !encodeSextet_not_comma by lia. reflexivity.
  - pose proof (byte_bound b1). pose proof (byte_bound b2).
    pose proof (byte_bound b3). cbn [encode lacks]. fold (encode rest).
    rewrite !encodeSextet_not_comma by lia. now rewrite IH.
Qed.

End Base64Facts.

(** ** Claims about the encoder *)

Section EncoderFacts.

Lemma append_assoc (a b c : string) : (a ++ b) ++ c = a ++ b ++ c.
Proof. induction a as [|x a IH]; simpl; [reflexivity|]. now rewrite IH. Qed.

(** The Data URL of a file is its header, a comma and the payload. *)
Lemma fileDataUrl_header (f : File) :
  fileDataUrl f =
  ("data:" ++ type f ++ ";base64") ++ String comma (Base64.encode (bytes f)).
Proof.
  unfold fileDataUrl. rewrite !append_assoc. reflexivity.
Qed.

(** X1. The part built for a file whose declared type has no comma: the
    payload decodes to the file's bytes and the type is carried over. *)
Lemma fileToPart_round_trip (reader : File -> ReadOutcome) (f : File) :
  reader f = LoadEnd (Some (fileDataUrl f)) ->
  lacks comma (type f) = true ->
  exists payload,
    fileToPart reader f =
      Fulfilled {| inlineData := Some {| data := Some payload;
                                         mimeType := Some (type f) |};
                   text := None |} /\
    Base64.decode payload = Some (bytes f).
Proof.
  intros Hread Htype. exists (Base64.encode (bytes f)). split.
  - unfold fileToPart. rewrite Hread, fileDataUrl_header.
    rewrite split_at_first.
    + now rewrite (split_lacks _ _ (Base64Facts.encode_lacks_comma (bytes f))).
    + rewrite !lacks_app, Htype. reflexivity.
  - apply Base64Facts.decode_encode.
Qed.

(** The declared type is carried over whatever it is. *)
Lemma fileToPart_mimeType (reader : File -> ReadOutcome) (f : File) (p : Part) :
  fileToPart reader f = Fulfilled p ->
  exists i, inlineData p = Some i /\ mimeType i = Some (type f).
Proof.
  unfold fileToPart. destruct (reader f) as [[result|]|event]; try discriminate.
  intros [= <-]. eexists. split; reflexivity.
Qed.

End EncoderFacts.

(** C9 at a file whose declared type contains a comma: the second piece of
    the split Data URL is the tail of the type, not the payload, and it
    does not decode to the file's bytes. *)
Theorem fileToPart_comma_in_type :
  fileDataUrl commaTypedFile = "data:image/png,x;base64,QQ==" /\
  fileToPart completeReader commaTypedFile =
    Fulfilled {| inlineData := Some {| data := Some "x;base64";
                                       mimeType := Some "image/png,x" |};
                 text := None |} /\
  Base64.decode "x;base64" = None /\
  Base64.decode "QQ==" = Some (bytes commaTypedFile).
Proof. repeat split. Qed.

(** ** Claims about the session *)

Section SessionFacts.

Lemma guard_passes (s : AppState) (f : File) :
  file (inputImage s) = Some f ->
  trim (prompt s) <> "" ->
  handleGenerate_start s =
    (setResultImage None (setErrorMsg None (setStatus PROCESSING s)),
     Some {| callFile := f; callPrompt := prompt s |}).
Proof.
  intros Hf Hp. unfold handleGenerate_start. rewrite Hf.
  apply truthy_true_iff in Hp. now rewrite Hp.
Qed.

Lemma guard_blocks (s : AppState) :
  file (inputImage s) = None \/ trim (prompt s) = "" ->
  handleGenerate_start s = (s, None).
Proof.
  intros H. unfold handleGenerate_start.
  destruct (file (inputImage s)) as [f|]; [|reflexivity].
  destruct H as [H|H]; [discriminate|].
  apply truthy_false_iff in H. now rewrite H.
Qed.

(** Whatever the state the outcome arrives in, it leaves the session
    settled. *)
Lemma resume_settles (io : Platform) (f : File) (p : string) (s : AppState) :
  settled (handleGenerate_resume (editImageWithGemini io f p) s).
Proof.
  destruct (editImageWithGemini io f p) as [url|err] eqn:E.
  - left. split; [reflexivity|]. exists url. split; [reflexivity|].
    eapply editImageWithGemini_fulfilled_nonempty; eauto.
  - destruct (editImageWithGemini_rejected_message _ _ _ _ E) as (m & -> & Hm).
    right. split; [reflexivity|].
    eexists. split; [reflexivity|]. apply orElse_nonempty. discriminate.
Qed.

Lemma settled_phase (s : AppState) :
  settled s -> status s <> IDLE /\ status s <> PROCESSING.
Proof. intros [[H _]|[H _]]; rewrite H; split; discriminate. Qed.

End SessionFacts.

(** C1, as stated, fails: in the Processing phase a submit with an image
    and an instruction is not a no-op, it starts a generation call; two
    submits in a row from a ready Idle state start two calls. *)
Lemma submit_while_processing_not_blocked :
  status (readyState PROCESSING) = PROCESSING /\
  handleGenerate_start (readyState PROCESSING) <> (readyState PROCESSING, None) /\
  snd (handleGenerate_start (readyState PROCESSING)) = Some sampleCall /\
  status (readyState IDLE) = IDLE /\
  List.length (log (run [Submit; Submit] (startSession (readyState IDLE)))) = 2.
Proof. repeat split. discriminate. Qed.

(** C1, amended. [handleGenerate] has no guard on the phase: in every
    phase, Processing included, a submit with an image and an instruction
    that is non-empty after trimming puts the phase to Processing, clears
    the result and the error message, leaves the image and the instruction
    as they are and starts one generation call; two submits in a row
    therefore start two calls. *)
Theorem submit_has_no_phase_guard (s : AppState) (f : File) :
  file (inputImage s) = Some f ->
  trim (prompt s) <> "" ->
  handleGenerate_start s =
    ({| inputImage := inputImage s; resultImage := None; prompt := prompt s;
        status := PROCESSING; errorMsg := None |},
     Some {| callFile := f; callPrompt := prompt s |}) /\
  let w := run [Submit; Submit] (startSession s) in
  status (app w) = PROCESSING /\
  log w = [{| callFile := f; callPrompt := prompt s |};
           {| callFile := f; callPrompt := prompt s |}] /\
  inflight w = log w.
Proof.
  intros Hf Hp. split; [now rewrite (guard_passes s f Hf Hp)|].
  unfold run, startSession. cbn [fold_left step app inflight log].
  rewrite (guard_passes s f Hf Hp). cbn [app inflight log].
  rewrite (guard_passes _ f); [repeat split| exact Hf | exact Hp].
Qed.

Lemma submit_has_no_phase_guard_witness :
  handleGenerate_start (readyState PROCESSING) =
    (readyState PROCESSING, Some sampleCall) /\
  log (run [Submit; Submit] (startSession (readyState PROCESSING)))
    = [sampleCall; sampleCall].
Proof.
  pose proof (submit_has_no_phase_guard (readyState PROCESSING) sampleFile
                eq_refl ltac:(discriminate)) as [H1 (_ & H2 & _)].
  split; [exact H1 | exact H2].
Defined.

(** C2, as stated, fails: an outcome that arrives after a reset has moved
    the session back to Idle is not discarded, it sets the result and the
    phase. *)
Lemma late_outcome_not_discarded :
  let before := run [Submit; Reset] (startSession (readyState IDLE)) in
  let after := step (Settle 0 (answering imageResponse)) before in
  status (app before) = IDLE /\
  resultImage (app before) = None /\
  status (app after) = SUCCESS /\
  resultImage (app after) = Some "data:image/jpeg;base64,QQ==" /\
  app after <> app before.
Proof. repeat split. discriminate. Qed.

(** C2, amended. The code after the [await] does not look at the phase:
    whenever the outcome of a call in flight arrives, whatever the session
    has become, a success stores the returned Data URL and sets the phase
    to Success (the error message is not touched), a failure stores the
    error's message and sets the phase to Error (the result is not
    touched); the image and the instruction are not modified. *)
Theorem late_outcome_applied (w : Session) (i : nat) (c : Call) (io : Platform) :
  nth_error (inflight w) i = Some c ->
  let w' := step (Settle i io) w in
  inputImage (app w') = inputImage (app w) /\
  prompt (app w') = prompt (app w) /\
  match editImageWithGemini io (callFile c) (callPrompt c) with
  | Fulfilled url =>
      status (app w') = SUCCESS /\
      resultImage (app w') = Some url /\
      errorMsg (app w') = errorMsg (app w)
  | Rejected err =>
      status (app w') = ERROR /\
      (exists m, err = newError m /\ errorMsg (app w') = Some m) /\
      resultImage (app w') = resultImage (app w)
  end.
Proof.
  intros Hc. cbn [step]. rewrite Hc. cbn [app].
  destruct (editImageWithGemini io (callFile c) (callPrompt c)) as [url|err] eqn:E;
    [repeat split|].
  destruct (editImageWithGemini_rejected_message _ _ _ _ E) as (m & -> & Hm).
  repeat split.
  exists m. split; [reflexivity|].
  cbn [handleGenerate_resume errorMsg setErrorMsg message newError].
  now rewrite orElse_available.
Qed.

Lemma late_outcome_applied_witness :
  status (app (step (Settle 0 (answering imageResponse))
                 (run [Submit; Reset] (startSession (readyState IDLE))))) = SUCCESS.
Proof.
  exact (proj1 (proj2 (proj2
    (late_outcome_applied (run [Submit; Reset] (startSession (readyState IDLE)))
       0 sampleCall (answering imageResponse) eq_refl)))).
Defined.

(** C4. From a state with an image, an instruction that is non-empty
    after trimming and a phase other than Processing, a submit that has
    run to completion leaves the session either in Success with a
    non-empty result or in Error with a non-empty error message, never in
    Idle or Processing; this holds as well when the outcome arrives in a
    state [mid] the user has moved the session to in the meantime. *)
Theorem submit_ends_in_success_or_error (io : Platform) (s : AppState) (f : File) :
  file (inputImage s) = Some f ->
  trim (prompt s) <> "" ->
  status s <> PROCESSING ->
  (settled (handleGenerate io s) /\
   status (handleGenerate io s) <> IDLE /\
   status (handleGenerate io s) <> PROCESSING /\
   ~ (status (handleGenerate io s) = SUCCESS /\ status (handleGenerate io s) = ERROR)) /\
  (fst (handleGenerate_start s) = setResultImage None (setErrorMsg None (setStatus PROCESSING s)) /\
   forall mid,
     settled (handleGenerate_resume (editImageWithGemini io f (prompt s)) mid)).
Proof.
  intros Hf Hp _.
  assert (Hs : settled (handleGenerate io s)).
  { unfold handleGenerate. rewrite (guard_passes s f Hf Hp). apply resume_settles. }
  split; [|split].
  - split; [exact Hs|]. destruct (settled_phase _ Hs) as [H1 H2].
    repeat split; try assumption. intros [H3 H4]. congruence.
  - now rewrite (guard_passes s f Hf Hp).
  - intros mid. apply resume_settles.
Qed.

Lemma submit_ends_in_success_or_error_witness :
  settled (handleGenerate (answering imageResponse) (readyState IDLE)).
Proof.
  exact (proj1 (proj1 (submit_ends_in_success_or_error (answering imageResponse)
    (readyState IDLE) sampleFile eq_refl ltac:(discriminate) ltac:(discriminate)))).
Defined.

(** C8. When the image is absent or the instruction is empty after
    trimming, a submit changes nothing: the state is returned as it is
    (phase, image, result, instruction and error message), no call is
    started and no error is stored. *)
Theorem submit_guard_is_silent (s : AppState) :
  file (inputImage s) = None \/ trim (prompt s) = "" ->
  handleGenerate_start s = (s, None) /\
  (forall io, handleGenerate io s = s) /\
  (forall w, app w = s -> step Submit w = w).
Proof.
  intros H. pose proof (guard_blocks s H) as G. split; [exact G|]. split.
  - intros io. unfold handleGenerate. now rewrite G.
  - intros [a l g] Ha. cbn [app] in Ha. subst a. cbn [step app inflight log].
    now rewrite G.
Qed.

Lemma submit_guard_is_silent_witness :
  handleGenerate_start (setPrompt "  " (readyState ERROR))
    = (setPrompt "  " (readyState ERROR), None) /\
  handleGenerate_start initialState = (initialState, None).
Proof.
  split.
  - exact (proj1 (submit_guard_is_silent (setPrompt "  " (readyState ERROR))
                    (or_intror eq_refl))).
  - exact (proj1 (submit_guard_is_silent initialState (or_introl eq_refl))).
Defined.

(** C10. A reset leaves the error message, the image and its preview as
    they are, clears the instruction and the result and sets the phase to
    Idle; issued in the Error phase, it returns to Idle with the error
    text still stored. *)
Theorem reset_keeps_error_message (s : AppState) :
  errorMsg (handleReset s) = errorMsg s /\
  inputImage (handleReset s) = inputImage s /\
  prompt (handleReset s) = "" /\
  resultImage (handleReset s) = None /\
  status (handleReset s) = IDLE /\
  (forall m, status s = ERROR -> errorMsg s = Some m ->
             status (handleReset s) = IDLE /\ errorMsg (handleReset s) = Some m).
Proof. repeat split; assumption. Qed.

Lemma reset_keeps_error_message_witness :
  status (handleReset (setErrorMsg (Some "fetch failed") (readyState ERROR))) = IDLE /\
  errorMsg (handleReset (setErrorMsg (Some "fetch failed") (readyState ERROR)))
    = Some "fetch failed".
Proof.
  exact (proj2 (proj2 (proj2 (proj2 (proj2
    (reset_keeps_error_message (setErrorMsg (Some "fetch failed") (readyState ERROR)))))))
    "fetch failed" eq_refl eq_refl).
Defined.

(** * Further properties of the code *)

(** ** Encoder *)

Lemma fileToPart_round_trip_witness :
  exists payload,
    fileToPart completeReader sampleFile =
      Fulfilled {| inlineData := Some {| data := Some payload;
                                         mimeType := Some "image/jpeg" |};
                   text := None |} /\
    Base64.decode payload = Some [x41].
Proof. exact (fileToPart_round_trip completeReader sampleFile eq_refl eq_refl). Defined.

Section SplitFacts.

Variable sep : ascii.

Lemma split_nonempty (s : string) : split sep s <> [].
Proof.
  induction s as [|c s IH]; simpl; [discriminate|].
  destruct (Ascii.eqb c sep); [discriminate|].
  destruct (split sep s); [contradiction|discriminate].
Qed.

(** A string with a separator splits into two pieces at least. *)
Lemma split_second (s : string) :
  lacks sep s = false -> exists a b rest, split sep s = a :: b :: rest.
Proof.
  induction s as [|c s IH]; simpl; [discriminate|].
  destruct (Ascii.eqb c sep) eqn:Ec; simpl.
  - intros _. destruct (split sep s) as [|b rest] eqn:Es.
    + now apply split_nonempty in Es.
    + now exists "", b, rest.
  - intros H. destruct (IH H) as (a & b & rest & ->).
    now exists (String c a), b, rest.
Qed.

End SplitFacts.

(** X2. Whatever string the reader reports, [fileToPart] resolves, with the
    declared type of the file; the payload is [undefined] exactly when
    the string has no comma. *)
Theorem fileToPart_string_result
    (reader : File -> ReadOutcome) (f : File) (result : string) :
  reader f = LoadEnd (Some result) ->
  exists payload,
    fileToPart reader f =
      Fulfilled {| inlineData := Some {| data := payload; mimeType := Some (type f) |};
                   text := None |} /\
    (payload = None <-> lacks comma result = true).
Proof.
  intros Hread. unfold fileToPart. rewrite Hread.
  eexists. split; [reflexivity|].
  destruct (lacks comma result) eqn:El.
  - rewrite (split_lacks _ _ El). simpl. tauto.
  - destruct (split_second comma result El) as (a & b & rest & ->). simpl.
    split; discriminate.
Qed.

Lemma fileToPart_string_result_witness :
  exists payload,
    fileToPart (fun _ => LoadEnd (Some "data:")) sampleFile =
      Fulfilled {| inlineData := Some {| data := payload; mimeType := Some "image/jpeg" |};
                   text := None |} /\
    (payload = None <-> lacks comma "data:" = true).
Proof.
  exact (fileToPart_string_result (fun _ => LoadEnd (Some "data:")) sampleFile "data:"
           eq_refl).
Defined.

(** ** Generation client *)

(** X3. A read that does not end with a string fails the call whatever the
    remote service would answer: the outcome is the same under any other
    [generateContent], and it is the reader's event message (or the
    fallback), or ["Failed to read file"]. *)
Theorem read_failure_before_network
    (io : Platform) (imageFile : File) (instruction : string) :
  (forall result, readAsDataURL io imageFile <> LoadEnd (Some result)) ->
  (forall remote,
     editImageWithGemini
       {| readAsDataURL := readAsDataURL io; generateContent := remote |}
       imageFile instruction
     = editImageWithGemini io imageFile instruction) /\
  editImageWithGemini io imageFile instruction =
    Rejected (newError
      match readAsDataURL io imageFile with
      | ReadError event => orElse (message event) "Failed to generate image."
      | LoadEnd _ => "Failed to read file"
      end).
Proof.
  intros Hread. unfold editImageWithGemini, tryBlock, fileToPart. simpl readAsDataURL.
  destruct (readAsDataURL io imageFile) as [[result|]|event].
  - now destruct (Hread result).
  - split; reflexivity.
  - split; reflexivity.
Qed.

Lemma read_failure_before_network_witness :
  editImageWithGemini
    {| readAsDataURL := fun _ => LoadEnd None;
       generateContent := fun _ => Fulfilled imageResponse |}
    sampleFile "make it blue"
  = Rejected (newError "Failed to read file").
Proof.
  exact (proj2 (read_failure_before_network
    {| readAsDataURL := fun _ => LoadEnd None;
       generateContent := fun _ => Fulfilled imageResponse |}
    sampleFile "make it blue" ltac:(discriminate))).
Defined.

Lemma no_image_data_received_witness :
  editImageWithGemini (answering {| candidates := Some [candidateOf []] |})
    sampleFile "make it blue"
  = Rejected (newError "No image data received from Gemini.").
Proof.
  apply (no_image_data_received
           (answering {| candidates := Some [candidateOf []] |})
           sampleFile "make it blue" {| candidates := Some [candidateOf []] |}
           (answering_respondsWith _ _ _)).
  right. right. exists (candidateOf []), [], {| parts := Some [] |}.
  split; [reflexivity|]. split; [reflexivity|].
  right. exists []. repeat split.
Defined.

Section MoreClientFacts.

Lemma scanParts_some_iff (ps : list Part) :
  (exists url, scanParts ps = Some url) <-> existsb carriesImage ps = true.
Proof.
  induction ps as [|q ps IH]; simpl.
  - split; [intros [url H]; discriminate | discriminate].
  - unfold carriesImage at 1.
    destruct (inlineData q) as [i|]; [|exact IH].
    destruct (data i) as [d|]; simpl; [|exact IH].
    destruct (truthy d); simpl; [|exact IH].
    split; [reflexivity | intros _; eauto].
Qed.

(** The rejection of the refusal case, with the message as the code
    builds it. *)
Lemma refusal_rejection io f p (r : Response) (ps : list Part) (q : Part) (t : string) :
  respondsWith io f p r ->
  firstCandidateParts r = Some ps ->
  existsb carriesImage ps = false ->
  find carriesText ps = Some q ->
  text q = Some t ->
  editImageWithGemini io f p = Rejected (newError (refusalMessage t)).
Proof.
  intros Hr Hps Himg Hq Ht.
  apply rethrown_as_is; [apply refusalMessage_nonempty|].
  rewrite (respondsWith_tryBlock _ _ _ _ Hr).
  destruct (firstCandidateParts_searches _ _ Hps) as [Hfind Htext].
  unfold interpretResponse. rewrite Hfind, Htext, Hq, Ht.
  rewrite scanParts_find, (find_none_existsb _ _ Himg).
  apply find_some in Hq as [_ Hc]. unfold carriesText in Hc.
  rewrite Ht in Hc. simpl in Hc. now rewrite Hc.
Qed.

Lemma length_append (a b : string) :
  String.length (a ++ b) = String.length a + String.length b.
Proof. induction a as [|c a IH]; simpl; [reflexivity|]. now rewrite IH. Qed.

Lemma slice0_short (n : nat) (s : string) :
  String.length s <= n -> slice0 n s = s.
Proof.
  unfold slice0. revert n. induction s as [|c s IH]; intros n H.
  - now destruct n.
  - destruct n as [|n]; simpl in *; [lia|]. rewrite IH by lia. reflexivity.
Qed.

End MoreClientFacts.

(** X5. The call succeeds exactly when the parts of the first candidate
    include one with non-empty inline image data: text beside it, or
    images in later candidates, change nothing. *)
Theorem success_iff_image_in_first_candidate
    (io : Platform) (imageFile : File) (instruction : string) (r : Response) :
  respondsWith io imageFile instruction r ->
  ((exists url, editImageWithGemini io imageFile instruction = Fulfilled url) <->
   (exists ps, firstCandidateParts r = Some ps /\ existsb carriesImage ps = true)).
Proof.
  intros Hr. unfold editImageWithGemini.
  rewrite (respondsWith_tryBlock _ _ _ _ Hr).
  unfold interpretResponse, findImage, firstCandidateParts, candidateParts.
  destruct (candidates r) as [[|c0 cs]|].
  - split; [intros [url H]|intros (ps & H & _)]; try discriminate.
    destruct (firstText r) as [t|]; [destruct (truthy t)|]; discriminate.
  - destruct (content c0) as [ct|].
    + destruct (parts ct) as [ps|].
      * destruct (scanParts ps) as [u|] eqn:Es.
        -- split; [intros _|intros _; eauto].
           exists ps. split; [reflexivity|]. apply scanParts_some_iff. eauto.
        -- split.
           ++ intros [url H].
              destruct (firstText r) as [t|]; [destruct (truthy t)|]; discriminate.
           ++ intros (ps' & [= <-] & Hex).
              apply scanParts_some_iff in Hex as [url Hurl]. congruence.
      * split; [intros [url H]|intros (ps & H & _)]; try discriminate.
        destruct (firstText r) as [t|]; [destruct (truthy t)|]; discriminate.
    + split; [intros [url H]|intros (ps & H & _)]; discriminate.
  - split; [intros [url H]|intros (ps & H & _)]; try discriminate.
    destruct (firstText r) as [t|]; [destruct (truthy t)|]; discriminate.
Qed.

Lemma success_iff_image_in_first_candidate_witness :
  ~ exists url,
      editImageWithGemini (answering imageInSecondCandidate) sampleFile "make it blue"
      = Fulfilled url.
Proof.
  intros H.
  apply (proj1 (success_iff_image_in_first_candidate
                  (answering imageInSecondCandidate) sampleFile "make it blue"
                  imageInSecondCandidate (answering_respondsWith _ _ _)))
    in H as (ps & [= <-] & Hex).
  discriminate Hex.
Defined.

(** X6. The refusal message is bounded: whatever the length of the model's
    text, the message has 50 characters around at most 100 of the text,
    so at most 150; a text of 100 characters or fewer is quoted whole, and
    still followed by the three dots. *)
Theorem refusal_message_bounded
    (io : Platform) (imageFile : File) (instruction : string)
    (r : Response) (ps : list Part) (q : Part) (t : string) :
  respondsWith io imageFile instruction r ->
  firstCandidateParts r = Some ps ->
  existsb carriesImage ps = false ->
  find carriesText ps = Some q ->
  text q = Some t ->
  exists m,
    editImageWithGemini io imageFile instruction = Rejected (newError m) /\
    String.length m = 50 + Nat.min 100 (String.length t) /\
    String.length m <= 150 /\
    (String.length t <= 100 ->
     m = "The model returned text instead of an image: " ++ dquote ++ t ++ "..." ++ dquote).
Proof.
  intros Hr Hps Himg Hq Ht. exists (refusalMessage t).
  split; [eapply refusal_rejection; eauto|].
  assert (L : String.length (refusalMessage t) = 50 + Nat.min 100 (String.length t)).
  { unfold refusalMessage. rewrite !length_append, slice0_length. simpl. lia. }
  split; [exact L|]. split; [lia|].
  intros Hshort. unfold refusalMessage. now rewrite slice0_short.
Qed.

Lemma refusal_message_bounded_witness :
  exists m,
    editImageWithGemini
      (answering {| candidates := Some [candidateOf [textPartOf refusalText]] |})
      sampleFile "make it blue" = Rejected (newError m) /\
    String.length m = 150.
Proof.
  destruct (refusal_message_bounded
    (answering {| candidates := Some [candidateOf [textPartOf refusalText]] |})
    sampleFile "make it blue" _ [textPartOf refusalText] (textPartOf refusalText)
    refusalText (answering_respondsWith _ _ _) eq_refl eq_refl eq_refl eq_refl)
    as (m & Hm & Hl & _).
  exists m. split; [exact Hm | exact Hl].
Defined.

(** ** Sessions: what holds after every sequence of events *)

Section Reachability.

Lemma run_snoc (es : list Event) (e : Event) (w : Session) :
  run (es ++ [e])%list w = step e (run es w).
Proof. unfold run. now rewrite fold_left_app. Qed.

(** Induction on the events that led to a session, last event last. *)
Lemma sessionAfter_ind (P : list Event -> Session -> Prop) :
  P [] (startSession initialState) ->
  (forall es e, P es (sessionAfter es) -> P (es ++ [e])%list (step e (sessionAfter es))) ->
  forall es, P es (sessionAfter es).
Proof.
  intros H0 Hstep es. induction es as [|e es IH] using rev_ind.
  - exact H0.
  - unfold sessionAfter. rewrite run_snoc. now apply Hstep.
Qed.

Lemma fulfilled_is_dataUrl (io : Platform) (f : File) (p url : string) :
  editImageWithGemini io f p = Fulfilled url -> startsWith url "data:" = true.
Proof.
  unfold editImageWithGemini, tryBlock.
  destruct (fileToPart _ f) as [imagePart|e]; [|discriminate].
  destruct (generateContent io _) as [r|e]; [|discriminate].
  unfold interpretResponse.
  destruct (findImage r) as [[u|]|e] eqn:Ef.
  - intros [= <-]. unfold findImage in Ef.
    destruct (candidates r) as [[|c0 cs]|]; try discriminate.
    destruct (content c0) as [ct|]; [|discriminate].
    destruct (parts ct) as [ps|]; [|discriminate].
    injection Ef as Ef. rewrite scanParts_find in Ef.
    destruct (find carriesImage ps) as [q|]; [|discriminate].
    destruct (inlineData q) as [i|]; [|discriminate].
    destruct (data i) as [d|]; [|discriminate].
    injection Ef as <-. reflexivity.
  - destruct (firstText r) as [t|]; [destruct (truthy t)|]; discriminate.
  - discriminate.
Qed.

Lemma step_coherent (e : Event) (w : Session) : coherent w -> coherent (step e w).
Proof.
  intros (Hphase & Hres & Herr). destruct e as [f url|t| | |i io]; cbn [step].
  - repeat split; cbn; intros; discriminate.
  - exact (conj Hphase (conj Hres Herr)).
  - unfold handleGenerate_start.
    destruct (file (inputImage (app w))) as [f|];
      [|exact (conj Hphase (conj Hres Herr))].
    destruct (negb (truthy (trim (prompt (app w)))));
      [exact (conj Hphase (conj Hres Herr))|].
    repeat split; cbn; try (intros; discriminate).
    intros E. now apply app_eq_nil in E as [_ E].
  - repeat split; cbn; try (intros; discriminate). exact Herr.
  - destruct (nth_error (inflight w) i) as [c|];
      [|exact (conj Hphase (conj Hres Herr))].
    destruct (editImageWithGemini io (callFile c) (callPrompt c)) as [url|err] eqn:E.
    + split; [|split]; cbn.
      * eauto.
      * intros u [= <-]. eapply fulfilled_is_dataUrl; eauto.
      * exact Herr.
    + destruct (editImageWithGemini_rejected_message _ _ _ _ E) as (m0 & -> & Hm0).
      split; [|split]; cbn.
      * eauto.
      * exact Hres.
      * intros m [= <-]. apply (orElse_nonempty (Some m0)). discriminate.
Qed.

Lemma sessionAfter_coherent (es : list Event) : coherent (sessionAfter es).
Proof.
  apply (sessionAfter_ind (fun _ w => coherent w)).
  - repeat split; cbn; intros; discriminate.
  - intros es' e. apply step_coherent.
Qed.

End Reachability.

(** X9. While a session is in the Processing phase, no result and no error
    message are stored and at least one generation call is in flight. *)
Theorem processing_has_call_in_flight (es : list Event) :
  status (app (sessionAfter es)) = PROCESSING ->
  resultImage (app (sessionAfter es)) = None /\
  errorMsg (app (sessionAfter es)) = None /\
  inflight (sessionAfter es) <> [].
Proof.
  intros H. destruct (sessionAfter_coherent es) as (Hphase & _).
  now rewrite H in Hphase.
Qed.

Lemma processing_has_call_in_flight_witness :
  inflight (sessionAfter [SelectImage sampleFile "blob:1";
                          SetInstruction "make it blue"; Submit]) <> [].
Proof.
  exact (proj2 (proj2 (processing_has_call_in_flight
    [SelectImage sampleFile "blob:1"; SetInstruction "make it blue"; Submit] eq_refl))).
Defined.

(** X10. After every sequence of events: in Success a result is stored, in
    Error a non-empty error message is stored, in Idle no result is
    stored, and a stored result always starts with [data:]. *)
Theorem resting_phase_has_outcome (es : list Event) :
  (status (app (sessionAfter es)) = SUCCESS ->
   exists url, resultImage (app (sessionAfter es)) = Some url /\
               startsWith url "data:" = true) /\
  (status (app (sessionAfter es)) = ERROR ->
   exists m, errorMsg (app (sessionAfter es)) = Some m /\ m <> "") /\
  (status (app (sessionAfter es)) = IDLE ->
   resultImage (app (sessionAfter es)) = None) /\
  (forall url, resultImage (app (sessionAfter es)) = Some url ->
               startsWith url "data:" = true).
Proof.
  destruct (sessionAfter_coherent es) as (Hphase & Hres & Herr).
  repeat split.
  - intros H. rewrite H in Hphase. destruct Hphase as [url Hu]. eauto.
  - intros H. rewrite H in Hphase. destruct Hphase as [m Hm]. eauto.
  - intros H. now rewrite H in Hphase.
  - exact Hres.
Qed.

Lemma resting_phase_has_outcome_witness :
  exists m,
    errorMsg (app (sessionAfter
      [SelectImage sampleFile "blob:1"; SetInstruction "make it blue"; Submit;
       Settle 0 (rejecting {| message := None |})])) = Some m /\ m <> "".
Proof.
  exact (proj1 (proj2 (resting_phase_has_outcome
    [SelectImage sampleFile "blob:1"; SetInstruction "make it blue"; Submit;
     Settle 0 (rejecting {| message := None |})])) eq_refl).
Defined.

Section Provenance.

Lemma selected_snoc (es : list Event) (e : Event) (f : File) :
  selected es f -> selected (es ++ [e]) f.
Proof. intros [url H]. exists url. apply in_or_app. now left. Qed.

Lemma removeAt_incl {A : Type} (i : nat) (l : list A) : incl (removeAt i l) l.
Proof.
  revert i. induction l as [|x l IH]; intros [|i]; simpl.
  - apply incl_refl.
  - apply incl_refl.
  - apply incl_tl, incl_refl.
  - intros y [<-|H]; [now left|right; now apply (IH i)].
Qed.

Lemma traced_weaken (es : list Event) (e : Event) (w : Session) :
  traced es w -> traced (es ++ [e]) w.
Proof.
  intros (Hf & Hp & Hlog & Hin & Hpre). repeat split; try tauto.
  - intros f E. apply selected_snoc. now apply Hf.
  - destruct Hp as [Hp|Hp]; [now left|right]. apply in_or_app. now left.
  - now apply (Hlog c).
  - apply selected_snoc. now apply (Hlog c).
  - apply in_or_app. left. now apply (Hlog c).
Qed.

Lemma trim_empty : trim "" = "".
Proof. reflexivity. Qed.

Lemma step_traced (es : list Event) (e : Event) (w : Session) :
  traced es w -> traced (es ++ [e]) (step e w).
Proof.
  intros H. pose proof (traced_weaken es e w H) as Hw.
  pose proof Hw as (Hf & Hp & Hlog & Hin & Hpre).
  destruct e as [f url|t| | |i io]; cbn [step].
  - repeat split; cbn; try tauto; try discriminate.
    + intros f' [= <-]. exists url. apply in_or_app. right. now left.
    + apply (Hlog c); assumption.
    + apply (Hlog c); assumption.
    + apply (Hlog c); assumption.
  - repeat split; cbn; try tauto.
    + right. apply in_or_app. right. now left.
    + apply (Hlog c); assumption.
    + apply (Hlog c); assumption.
    + apply (Hlog c); assumption.
  - unfold handleGenerate_start.
    destruct (file (inputImage (app w))) as [f|] eqn:Ef;
      [|exact Hw].
    destruct (truthy (trim (prompt (app w)))) eqn:Et; cbn [negb];
      [|exact Hw].
    assert (Hc : trim (prompt (app w)) <> "" /\ selected (es ++ [Submit]) f /\
                 In (SetInstruction (prompt (app w))) (es ++ [Submit])).
    { apply truthy_true_iff in Et. split; [exact Et|]. split; [now apply Hf|].
      destruct Hp as [Hp|Hp]; [|exact Hp]. rewrite Hp in Et. now destruct Et. }
    split; [|split; [|split; [|split]]]; cbn.
    + exact (proj1 Hw).
    + exact Hp.
    + intros c Hc'. apply in_app_or in Hc' as [Hc'|[<-|[]]]; [now apply Hlog|exact Hc].
    + apply incl_app; [apply incl_appl; exact Hin | apply incl_appr, incl_refl].
    + exact (proj2 (proj2 (proj2 (proj2 Hw)))).
  - split; [|split; [|split; [|split]]]; cbn; try assumption. now left.
  - destruct (nth_error (inflight w) i) as [c|];
      [|exact Hw].
    assert (Hin' : incl (removeAt i (inflight w)) (log w)).
    { eapply incl_tran; [apply removeAt_incl|exact Hin]. }
    destruct (editImageWithGemini io (callFile c) (callPrompt c)) as [url|[|o]];
      (split; [|split; [|split; [|split]]]); cbn; assumption.
Qed.

Lemma sessionAfter_traced (es : list Event) : traced es (sessionAfter es).
Proof.
  apply (sessionAfter_ind traced).
  - split; [discriminate|]. split; [now left|]. split; [intros c []|].
    split; [apply incl_refl|]. cbn. tauto.
  - intros es' e. apply step_traced.
Qed.

End Provenance.

(** X11. Every generation call a session has started carries a file the user
    selected and an instruction the user entered, and that instruction is
    not empty after trimming; the calls in flight are among them. *)
Theorem calls_come_from_the_user (es : list Event) (c : Call) :
  In c (log (sessionAfter es)) \/ In c (inflight (sessionAfter es)) ->
  In c (log (sessionAfter es)) /\
  trim (callPrompt c) <> "" /\
  (exists url, In (SelectImage (callFile c) url) es) /\
  In (SetInstruction (callPrompt c)) es.
Proof.
  intros H. destruct (sessionAfter_traced es) as (_ & _ & Hlog & Hin & _).
  assert (Hc : In c (log (sessionAfter es))) by (destruct H; [assumption|now apply Hin]).
  split; [exact Hc|]. now apply Hlog.
Qed.

Lemma calls_come_from_the_user_witness :
  In (SetInstruction "make it blue")
     [SelectImage sampleFile "blob:1"; SetInstruction "make it blue"; Submit].
Proof.
  exact (proj2 (proj2 (proj2 (calls_come_from_the_user
    [SelectImage sampleFile "blob:1"; SetInstruction "make it blue"; Submit]
    sampleCall (or_introl (or_introl eq_refl)))))).
Defined.

(** X12. As long as no image was selected, nothing happens: no call is
    started, the phase stays Idle and no result or error appears,
    whatever is typed, submitted, reset or settled. *)
Theorem no_image_no_call (es : list Event) :
  existsb selectsImage es = false ->
  log (sessionAfter es) = [] /\
  inflight (sessionAfter es) = [] /\
  inputImage (app (sessionAfter es)) = inputImage initialState /\
  status (app (sessionAfter es)) = IDLE /\
  resultImage (app (sessionAfter es)) = None /\
  errorMsg (app (sessionAfter es)) = None.
Proof.
  unfold sessionAfter.
  assert (H0 : log (startSession initialState) = [] /\
               inflight (startSession initialState) = [] /\
               inputImage (app (startSession initialState)) = inputImage initialState /\
               status (app (startSession initialState)) = IDLE /\
               resultImage (app (startSession initialState)) = None /\
               errorMsg (app (startSession initialState)) = None)
    by (repeat split).
  revert H0. generalize (startSession initialState).
  induction es as [|e es IH]; intros w Hw Hno; [exact Hw|].
  cbn [existsb] in Hno. apply orb_false_iff in Hno as [He Hno].
  cbn [run fold_left]. apply IH; [|exact Hno].
  destruct Hw as (Hl & Hi & Him & Hs & Hr & Herr).
  destruct e as [f url|t| | |i io]; [discriminate| | | |]; cbn [step].
  - repeat split; assumption.
  - unfold handleGenerate_start. rewrite Him. cbn. repeat split; assumption.
  - repeat split; assumption.
  - rewrite Hi. destruct i; cbn; repeat split; assumption.
Qed.

Lemma no_image_no_call_witness :
  log (sessionAfter [SetInstruction "make it blue"; Submit; Reset; Submit]) = [].
Proof.
  exact (proj1 (no_image_no_call
    [SetInstruction "make it blue"; Submit; Reset; Submit] eq_refl)).
Defined.

(** X13. The image and its preview are set together, and no event removes
    them: once a file is selected the session always has one. *)
Theorem image_never_removed (es more : list Event) :
  (file (inputImage (app (sessionAfter es))) = None <->
   previewUrl (inputImage (app (sessionAfter es))) = None) /\
  (file (inputImage (app (sessionAfter es))) <> None ->
   file (inputImage (app (run more (sessionAfter es)))) <> None).
Proof.
  split; [apply (sessionAfter_traced es)|].
  generalize (sessionAfter es). induction more as [|e more IH]; intros w Hw.
  - exact Hw.
  - cbn [run fold_left]. apply IH.
    destruct e as [f url|t| | |i io]; cbn [step]; try exact Hw.
    + discriminate.
    + unfold handleGenerate_start.
      destruct (file (inputImage (app w))) as [f|] eqn:Ef; [|now destruct Hw].
      destruct (negb _); cbn; rewrite Ef; exact Hw.
    + destruct (nth_error (inflight w) i); [|exact Hw].
      destruct (editImageWithGemini _ _ _) as [url|[|o]]; exact Hw.
Qed.

Lemma image_never_removed_witness :
  file (inputImage (app (run [Reset; Submit; SetInstruction ""]
                           (sessionAfter [SelectImage sampleFile "blob:1"])))) <> None.
Proof.
  exact (proj2 (image_never_removed [SelectImage sampleFile "blob:1"]
                  [Reset; Submit; SetInstruction ""]) ltac:(discriminate)).
Defined.

(** ** Preview URLs *)

Section ObjectUrls.

(** Only the preview of the current image is alive, and it is not empty. *)
Let tidy (b : Browser) : Prop :=
  objectUrls b = previewUrls (app (page b)) /\
  (forall u, previewUrl (inputImage (app (page b))) = Some u -> u <> "").

Lemma revoke_only (u : string) : revokeObjectURL u [u] = [].
Proof. unfold revokeObjectURL. simpl. now rewrite String.eqb_refl. Qed.

Lemma stepBrowser_tidy (e : Event) (b : Browser) :
  match e with SelectImage _ url => url <> "" | _ => True end ->
  tidy b -> tidy (stepBrowser e b).
Proof.
  intros He [Hurls Hne]. unfold tidy, stepBrowser, previewUrls in *. cbn [page objectUrls].
  destruct e as [f url|t| | |i io]; cbn [step].
  - cbn. split; [|intros u [= <-]; exact He].
    unfold handleImageSelect_urls. rewrite Hurls.
    destruct (previewUrl (inputImage (app (page b)))) as [old|]; [|reflexivity].
    cbn [truthyOpt]. pose proof (Hne old eq_refl) as Hold.
    apply truthy_true_iff in Hold. rewrite Hold. now rewrite revoke_only.
  - now split.
  - unfold handleGenerate_start.
    destruct (file (inputImage (app (page b)))); [|now split].
    destruct (negb _); now split.
  - now split.
  - destruct (nth_error (inflight (page b)) i); [|now split].
    destruct (editImageWithGemini _ _ _) as [url|[|o]]; now split.
Qed.

Lemma runBrowser_tidy (es : list Event) (b : Browser) :
  urlsNonEmpty es -> tidy b -> tidy (runBrowser es b).
Proof.
  revert b. induction es as [|e es IH]; intros b Hes Hb; [exact Hb|].
  inversion Hes as [|? ? He Hes']; subst.
  cbn [runBrowser fold_left]. apply IH; [exact Hes'|].
  now apply stepBrowser_tidy.
Qed.

Lemma runBrowser_page (es : list Event) (b : Browser) :
  page (runBrowser es b) = run es (page b).
Proof.
  revert b. induction es as [|e es IH]; intros b; [reflexivity|].
  cbn [runBrowser run fold_left]. apply IH.
Qed.

(** X14. Selecting images never accumulates preview URLs: after every sequence
    of events, the object URLs created and not yet revoked are exactly the
    preview of the current image (none before the first selection). *)
Theorem previews_do_not_leak (es : list Event) :
  urlsNonEmpty es ->
  objectUrls (runBrowser es startBrowser) = previewUrls (app (sessionAfter es)) /\
  List.length (objectUrls (runBrowser es startBrowser)) <= 1.
Proof.
  intros Hes.
  destruct (runBrowser_tidy es startBrowser Hes) as [Hurls _].
  { split; [reflexivity|discriminate]. }
  rewrite Hurls, runBrowser_page. split; [reflexivity|].
  unfold previewUrls. destruct (previewUrl _); simpl; lia.
Qed.

End ObjectUrls.

Lemma previews_do_not_leak_witness :
  objectUrls (runBrowser [SelectImage sampleFile "blob:1"; Reset;
                          SelectImage commaTypedFile "blob:2";
                          SelectImage sampleFile "blob:3"] startBrowser)
  = ["blob:3"].
Proof.
  refine (proj1 (previews_do_not_leak
    [SelectImage sampleFile "blob:1"; Reset;
     SelectImage commaTypedFile "blob:2"; SelectImage sampleFile "blob:3"] _)).
  repeat constructor; discriminate.
Defined.

(** ** Upload widget *)

Section Uploader.

Lemma play_imagesOnly (g : Gesture) (w : Session) :
  dropOnly g = true -> imagesOnly w -> imagesOnly (play g w).
Proof.
  intros Hg [Hf Hlog]. destruct g as [files url|files url|e]; [discriminate| |].
  - unfold play, handleDrop. destruct files as [[|f rest]|]; try now split.
    destruct (startsWith (type f) "image/") eqn:Et; [|now split].
    split; cbn; [intros f' [= <-]; exact Et | exact Hlog].
  - destruct e as [f url|t| | |i io]; [discriminate| | | |]; cbn [play step].
    + now split.
    + unfold handleGenerate_start.
      destruct (file (inputImage (app w))) as [f|] eqn:Ef in |- *; [|now split].
      destruct (negb _); [now split|]. split; cbn.
      * exact Hf.
      * intros c Hc. apply in_app_or in Hc as [Hc|[<-|[]]]; [now apply Hlog|].
        cbn. now apply Hf.
    + now split.
    + destruct (nth_error (inflight w) i); [|now split].
      destruct (editImageWithGemini _ _ _) as [url|[|o]]; now split.
Qed.

End Uploader.

(** X15. When images only enter through the drop zone, every generation call
    is made for a file whose declared type starts with [image/]: a
    dropped file of another type, or a drop whose first file is not an
    image, never reaches the session. *)
Theorem dropped_files_are_images (gs : list Gesture) (c : Call) :
  forallb dropOnly gs = true ->
  In c (log (playAll gs (startSession initialState))) ->
  startsWith (type (callFile c)) "image/" = true.
Proof.
  intros Hgs.
  assert (H : imagesOnly (playAll gs (startSession initialState))).
  { assert (H0 : imagesOnly (startSession initialState))
      by (split; [discriminate|intros ? []]).
    revert H0. generalize (startSession initialState).
    induction gs as [|g gs IH]; intros w Hw; [exact Hw|].
    cbn [forallb] in Hgs. apply andb_true_iff in Hgs as [Hg Hgs].
    cbn [playAll fold_left]. apply (IH Hgs). now apply play_imagesOnly. }
  apply H.
Qed.

Lemma dropped_files_are_images_witness :
  startsWith (type sampleFile) "image/" = true.
Proof.
  exact (dropped_files_are_images
    [DropFiles (Some [{| bytes := []; type := "text/plain" |}; commaTypedFile]) "blob:0";
     DropFiles (Some [sampleFile]) "blob:1";
     Other (SetInstruction "make it blue"); Other Submit]
    sampleCall eq_refl (or_introl eq_refl)).
Defined.

(** ** The rendered page *)

Section Trimming.

Lemma trimStart_blank (s : string) : blank s = true -> trimStart s = "".
Proof.
  induction s as [|c s IH]; simpl; [reflexivity|].
  intros H. apply andb_true_iff in H as [Hc Hs]. rewrite Hc. now apply IH.
Qed.

Lemma trimStart_keeps (s : string) :
  blank s = false -> exists c t, trimStart s = String c t /\ isWhiteSpace c = false.
Proof.
  induction s as [|c s IH]; simpl; [discriminate|].
  destruct (isWhiteSpace c) eqn:Ec; simpl; [exact IH|].
  intros _. now exists c, s.
Qed.

Lemma trimEnd_keeps (c : ascii) (t : string) :
  isWhiteSpace c = false -> trimEnd (String c t) <> "".
Proof.
  intros Hc. simpl. destruct (trimEnd t); [rewrite Hc|]; discriminate.
Qed.

(** Trimming leaves nothing exactly when there is only white space. *)
Lemma trim_blank (s : string) : trim s = "" <-> blank s = true.
Proof.
  unfold trim. split.
  - intros H. destruct (blank s) eqn:Eb; [reflexivity|].
    destruct (trimStart_keeps s Eb) as (c & t & Ht & Hc).
    rewrite Ht in H. now apply trimEnd_keeps in H.
  - intros H. now rewrite (trimStart_blank s H).
Qed.

End Trimming.

(** X16. The Generate button is disabled exactly when a submit would do
    nothing, that is, when there is no image or the instruction consists
    of white space only. *)
Theorem disabled_iff_submit_is_noop (s : AppState) :
  (generateDisabled (render s) = true <-> handleGenerate_start s = (s, None)) /\
  (generateDisabled (render s) = true <->
   file (inputImage s) = None \/ blank (prompt s) = true).
Proof.
  unfold render, handleGenerate_start. cbn [generateDisabled].
  destruct (file (inputImage s)) as [f|].
  - destruct (truthy (trim (prompt s))) eqn:Et; cbn [negb].
    + apply truthy_true_iff in Et. split; split; try discriminate.
      intros [H|H]; [discriminate|]. apply trim_blank in H. contradiction.
    + apply truthy_false_iff in Et. split; split; try reflexivity.
      intros _. right. now apply trim_blank.
  - split; split; try reflexivity. intros _. now left.
Qed.

Lemma disabled_iff_submit_is_noop_witness :
  generateDisabled (render (setPrompt "   " (readyState IDLE))) = true.
Proof.
  exact (proj2 (proj2 (disabled_iff_submit_is_noop (setPrompt "   " (readyState IDLE))))
           (or_intror eq_refl)).
Defined.

(** X17. The tips are shown exactly when the result panel shows its
    placeholder, and the generated image is shown exactly when the Clear
    button is shown and the page is not waiting. *)
Theorem tips_with_placeholder (s : AppState) :
  (tipsShown (render s) = true <-> resultPanel (render s) = Placeholder) /\
  ((exists src, resultPanel (render s) = Generated src) <->
   clearShown (render s) = true /\ generateIsLoading (render s) = false).
Proof.
  unfold render. cbn [tipsShown resultPanel clearShown generateIsLoading].
  destruct (isProcessing (status s)); destruct (resultImage s) as [src|];
    cbn [truthyOpt]; try destruct (truthy src); cbn [negb andb];
    split; split; try discriminate; try reflexivity;
    try (intros [? ?]; discriminate); try (intros [? H]; discriminate);
    eauto.
Qed.

(** X18. While the page shows that it is waiting, it shows nothing else about
    outcomes: no error box, no Clear button and no tips. *)
Theorem waiting_page_shows_no_outcome (es : list Event) :
  resultPanel (render (app (sessionAfter es))) = Dreaming ->
  generateIsLoading (render (app (sessionAfter es))) = true /\
  errorBox (render (app (sessionAfter es))) = None /\
  clearShown (render (app (sessionAfter es))) = false /\
  tipsShown (render (app (sessionAfter es))) = false.
Proof.
  unfold render. cbn [resultPanel generateIsLoading errorBox clearShown tipsShown].
  intros H.
  assert (Hp : status (app (sessionAfter es)) = PROCESSING).
  { destruct (status (app (sessionAfter es))); cbn in H; try reflexivity;
      destruct (resultImage (app (sessionAfter es))) as [src|];
      try destruct (truthy src); discriminate. }
  destruct (sessionAfter_coherent es) as (Hphase & _).
  rewrite Hp in Hphase. destruct Hphase as (Hr & He & _).
  rewrite Hp, Hr, He. repeat split.
Qed.

Lemma waiting_page_shows_no_outcome_witness :
  errorBox (render (app (sessionAfter
    [SelectImage sampleFile "blob:1"; SetInstruction "make it blue"; Submit;
     Settle 0 (rejecting {| message := None |}); Submit]))) = None.
Proof.
  exact (proj1 (proj2 (waiting_page_shows_no_outcome
    [SelectImage sampleFile "blob:1"; SetInstruction "make it blue"; Submit;
     Settle 0 (rejecting {| message := None |}); Submit] eq_refl))).
Defined.

(** X19. After Clear the page shows the placeholder and the tips, no Clear
    button, and a disabled Generate button (the instruction is empty); the
    preview and the error box are as before. *)
Theorem page_after_reset (s : AppState) :
  render (handleReset s) =
  {| currentImage := currentImage (render s);
     generateIsLoading := false;
     generateDisabled := true;
     clearShown := false;
     errorBox := errorBox (render s);
     resultPanel := Placeholder;
     tipsShown := true |}.
Proof.
  unfold render, handleReset. cbn.
  now destruct (file (inputImage s)).
Qed.

(** X20. After an image is selected the page shows its preview, the
    placeholder and the tips, no error box and no Clear button, in
    whatever state the selection was made; the instruction is kept, so
    the Generate button is enabled when it is not blank. *)
Theorem page_after_select (f : File) (url : string) (s : AppState) :
  render (handleImageSelect f url s) =
  {| currentImage := Some url;
     generateIsLoading := false;
     generateDisabled := blank (prompt s);
     clearShown := false;
     errorBox := None;
     resultPanel := Placeholder;
     tipsShown := true |} /\
  prompt (handleImageSelect f url s) = prompt s.
Proof.
  split; [|reflexivity]. unfold render, handleImageSelect. cbn -[trim blank]. f_equal.
  destruct (blank (prompt s)) eqn:Eb.
  - apply trim_blank in Eb. now rewrite Eb.
  - destruct (truthy (trim (prompt s))) eqn:Et; [reflexivity|].
    apply truthy_false_iff, trim_blank in Et. congruence.
Qed.

(** ** A submit from start to end *)

(** X8. A submit that passes the guard and runs to completion leaves the
    image and the instruction as they were and replaces both outcome
    fields: on success the result is the returned Data URL and the error
    message is cleared, on failure the error message is the failure's
    message and the previous result is cleared. *)
Theorem completed_submit_state (io : Platform) (s : AppState) (f : File) :
  file (inputImage s) = Some f ->
  trim (prompt s) <> "" ->
  match editImageWithGemini io f (prompt s) with
  | Fulfilled url =>
      handleGenerate io s =
      {| inputImage := inputImage s; resultImage := Some url; prompt := prompt s;
         status := SUCCESS; errorMsg := None |}
  | Rejected err =>
      exists m, err = newError m /\ m <> "" /\
        handleGenerate io s =
        {| inputImage := inputImage s; resultImage := None; prompt := prompt s;
           status := ERROR; errorMsg := Some m |}
  end.
Proof.
  intros Hf Hp. unfold handleGenerate. rewrite (guard_passes s f Hf Hp).
  cbn [callFile callPrompt].
  destruct (editImageWithGemini io f (prompt s)) as [url|err] eqn:E; [reflexivity|].
  destruct (editImageWithGemini_rejected_message _ _ _ _ E) as (m & -> & Hm).
  exists m. split; [reflexivity|]. split; [exact Hm|].
  unfold handleGenerate_resume. cbn [message newError].
  now rewrite orElse_available.
Qed.

Lemma completed_submit_state_witness :
  handleGenerate (rejecting (newError "fetch failed"))
    (setResultImage (Some "data:image/png;base64,QQ==") (readyState SUCCESS))
  = setErrorMsg (Some "fetch failed") (readyState ERROR).
Proof.
  destruct (completed_submit_state (rejecting (newError "fetch failed"))
              (setResultImage (Some "data:image/png;base64,QQ==") (readyState SUCCESS))
              sampleFile eq_refl ltac:(discriminate)) as (m & Hm & _ & H).
  injection Hm as <-. exact H.
Defined.

(** X7. The outcome of a call depends on the remote service through one
    request only: the one with the fixed model name whose parts are the
    encoded image and then the instruction, as typed.  Two services that
    answer this request alike give the same outcome. *)
Theorem one_request_decides
    (io io' : Platform) (imageFile : File) (instruction : string) :
  readAsDataURL io imageFile = readAsDataURL io' imageFile ->
  (forall imagePart,
     fileToPart (readAsDataURL io) imageFile = Fulfilled imagePart ->
     generateContent io
       {| model := "gemini-2.5-flash-image";
          contents := [imagePart; {| inlineData := None; text := Some instruction |}] |}
     = generateContent io'
       {| model := "gemini-2.5-flash-image";
          contents := [imagePart; {| inlineData := None; text := Some instruction |}] |}) ->
  editImageWithGemini io imageFile instruction
  = editImageWithGemini io' imageFile instruction.
Proof.
  intros Hread Hsame. unfold editImageWithGemini, tryBlock.
  assert (Hpart : fileToPart (readAsDataURL io') imageFile
                  = fileToPart (readAsDataURL io) imageFile)
    by (unfold fileToPart; now rewrite Hread).
  rewrite Hpart.
  destruct (fileToPart (readAsDataURL io) imageFile) as [imagePart|e] eqn:E;
    [|reflexivity].
  unfold buildRequest, modelName. now rewrite (Hsame imagePart eq_refl).
Qed.

Lemma one_request_decides_witness :
  editImageWithGemini (answering imageResponse) sampleFile "make it blue"
  = editImageWithGemini
      {| readAsDataURL := completeReader;
         generateContent := fun r =>
           if String.eqb (model r) "gemini-2.5-flash-image"
           then Fulfilled imageResponse
           else Rejected (newError "unknown model") |}
      sampleFile "make it blue".
Proof.
  apply one_request_decides; [reflexivity|]. intros imagePart _. reflexivity.
Defined.

(** ** Presets *)

(** X21. Every preset is an instruction the guard accepts: with an image
    present, choosing a preset enables the Generate button and a submit
    starts a call with the preset's text. *)
Theorem presets_pass_the_guard (p : Preset) (s : AppState) (f : File) :
  In p presets ->
  file (inputImage s) = Some f ->
  generateDisabled (render (setPrompt (presetText p) s)) = false /\
  snd (handleGenerate_start (setPrompt (presetText p) s))
  = Some {| callFile := f; callPrompt := presetText p |}.
Proof.
  intros Hp Hf.
  assert (Ht : truthy (trim (presetText p)) = true).
  { assert (Hall : forallb (fun q => truthy (trim (presetText q))) presets = true)
      by reflexivity.
    rewrite forallb_forall in Hall. now apply Hall. }
  unfold render, handleGenerate_start. cbn -[trim]. rewrite Hf, Ht. now split.
Qed.

Lemma presets_pass_the_guard_witness :
  generateDisabled
    (render (setPrompt "Convert this image into a detailed pencil sketch."
               (readyState IDLE))) = false.
Proof.
  refine (proj1 (presets_pass_the_guard
    {| label := "Sketch";
       presetText := "Convert this image into a detailed pencil sketch." |}
    (readyState IDLE) sampleFile _ eq_refl)).
  right. right. left. reflexivity.
Defined.

(** X22. Whatever image the result panel displays is a Data URL returned by a
    generation call, and it is displayed in the Success or the Error
    phase only (in Error when a later call failed after an earlier one
    had succeeded). *)
Theorem displayed_image_is_dataUrl (es : list Event) (src : string) :
  resultPanel (render (app (sessionAfter es))) = Generated src ->
  resultImage (app (sessionAfter es)) = Some src /\
  startsWith src "data:" = true /\
  (status (app (sessionAfter es)) = SUCCESS \/ status (app (sessionAfter es)) = ERROR).
Proof.
  unfold render. cbn [resultPanel].
  destruct (sessionAfter_coherent es) as (Hphase & Hres & _).
  destruct (resultImage (app (sessionAfter es))) as [u|] eqn:Er.
  - destruct (status (app (sessionAfter es))) eqn:Es; cbn [isProcessing];
      try discriminate; try (now destruct Hphase);
      destruct (truthy u); try discriminate; intros [= <-];
      (split; [reflexivity|split; [now apply Hres|]]); tauto.
  - destruct (isProcessing _); discriminate.
Qed.

Lemma displayed_image_is_dataUrl_witness :
  status (app (sessionAfter
    [SelectImage sampleFile "blob:1"; SetInstruction "make it blue"; Submit; Submit;
     Settle 0 (answering imageResponse); Settle 0 (rejecting {| message := None |})]))
  = SUCCESS \/
  status (app (sessionAfter
    [SelectImage sampleFile "blob:1"; SetInstruction "make it blue"; Submit; Submit;
     Settle 0 (answering imageResponse); Settle 0 (rejecting {| message := None |})]))
  = ERROR.
Proof.
  exact (proj2 (proj2 (displayed_image_is_dataUrl
    [SelectImage sampleFile "blob:1"; SetInstruction "make it blue"; Submit; Submit;
     Settle 0 (answering imageResponse); Settle 0 (rejecting {| message := None |})]
    "data:image/jpeg;base64,QQ==" eq_refl))).
Defined.
